(** * Triangle.cpp: a keyboard-controlled triangle with a jump animation

    A shallow embedding of [src/Triangle.cpp].  The program keeps all of
    its numbers in C++ [float] (IEEE 754 binary32) and evaluates the
    expressions that mention [M_PI] in [double] (binary64), so numbers are
    modelled with the Standard Library's executable [spec_float] at the
    two precisions; the 16-float matrices are lists updated by index; the
    render loop is a transition function on a record of the locals of
    [main]; the OpenGL shader calls live in a small state monad over the
    driver state and the error stream. *)

From Stdlib Require Import ZArith QArith SpecFloat.
From stdpp Require Import base list strings gmap.

Local Open Scope Z_scope.

(** ** IEEE 754 arithmetic as the compiler emits it *)

Module IEEE.

(** [float] and [double] share the carrier; the operations differ. *)
Definition f32 := spec_float.
Definition f64 := spec_float.

Definition prec32 := 24.
Definition emax32 := 128.
Definition prec64 := 53.
Definition emax64 := 1024.

Definition fadd : f32 -> f32 -> f32 := SFadd prec32 emax32.
Definition fsub : f32 -> f32 -> f32 := SFsub prec32 emax32.
Definition fmul : f32 -> f32 -> f32 := SFmul prec32 emax32.
Definition fdiv : f32 -> f32 -> f32 := SFdiv prec32 emax32.
Definition fneg : f32 -> f32 := SFopp.
Definition flt : f32 -> f32 -> bool := SFltb.
Definition fle : f32 -> f32 -> bool := SFleb.
Definition feq : f32 -> f32 -> bool := SFeqb.

Definition dmul : f64 -> f64 -> f64 := SFmul prec64 emax64.
Definition ddiv : f64 -> f64 -> f64 := SFdiv prec64 emax64.

(** Implicit conversion [float -> double]: exact, re-normalised to the
    53-bit mantissa. *)
Definition f2d (x : f32) : f64 :=
  match x with
  | S754_finite s m e => binary_round prec64 emax64 s m e
  | _ => x
  end.

(** Implicit conversion [double -> float]: round to nearest, ties to
    even. *)
Definition d2f (x : f64) : f32 :=
  match x with
  | S754_finite s m e => binary_round prec32 emax32 s m e
  | _ => x
  end.

(** A decimal literal [digits * 10^-scale], rounded once to the target
    format, as the compiler does for [0.01f] or [3.14159...]. *)
Definition dec_literal (prec emax : Z) (digits : positive) (scale : nat)
  : spec_float :=
  SFdiv prec emax (S754_finite false digits 0)
        (S754_finite false (Z.to_pos (10 ^ Z.of_nat scale)) 0).

Definition lit32 := dec_literal prec32 emax32.
Definition lit64 := dec_literal prec64 emax64.

Definition f_0_0 : f32 := S754_zero false.                       (* 0.0f   *)
Definition f_1_0 : f32 := Eval vm_compute in lit32 10 1.         (* 1.0f   *)
Definition f_0_5 : f32 := Eval vm_compute in lit32 5 1.          (* 0.5f   *)
Definition f_0_1 : f32 := Eval vm_compute in lit32 1 1.          (* 0.1f   *)
Definition f_0_01 : f32 := Eval vm_compute in lit32 1 2.         (* 0.01f  *)
Definition f_0_75 : f32 := Eval vm_compute in lit32 75 2.        (* 0.75f  *)
Definition f_180_0 : f32 := Eval vm_compute in lit32 1800 1.     (* 180.0f *)

(** [#define M_PI 3.14159265358979323846], a [double]. *)
Definition M_PI : f64 :=
  Eval vm_compute in lit64 314159265358979323846 20.

Definition is_nan (x : spec_float) : bool :=
  match x with S754_nan => true | _ => false end.

Definition valid32 : f32 -> bool := valid_binary prec32 emax32.

End IEEE.
Import IEEE.

(** ** The C math library

    [sinf] and [cosf] come from the platform's libm, not from the
    repository: they are an interface. *)

Class Libm := {
  sinf : f32 -> f32;
  cosf : f32 -> f32
}.

(** A concrete libm for running the model: the Taylor polynomial of
    degree 2n+1 (resp. 2n) summed exactly over the rationals and rounded
    once to binary32.  Zeros, infinities and NaN follow C99 Annex F. *)
Module RefLibm.

Definition Q_of_f32 (x : f32) : Q :=
  match x with
  | S754_finite s m e =>
      let v := match e with
               | Zneg p => Qmake (Zpos m) (Pos.pow 2 p)
               | _ => inject_Z (Zpos m * 2 ^ e)
               end in
      if s then Qopp v else v
  | _ => 0%Q
  end.

Definition f32_of_Q (q : Q) : f32 :=
  match Qnum q with
  | Z0 => S754_zero false
  | Zpos n => SFdiv prec32 emax32 (S754_finite false n 0)
                    (S754_finite false (Qden q) 0)
  | Zneg n => SFdiv prec32 emax32 (S754_finite true n 0)
                    (S754_finite false (Qden q) 0)
  end.

(** [series n k t acc x2]: add [n] terms starting from term [t] whose
    index is [k]; the next term is [- t * x2 / ((k+1)(k+2))]. *)
Fixpoint series (n : nat) (k : Z) (t acc x2 : Q) : Q :=
  match n with
  | O => acc
  | S n' =>
      let t' := Qred (Qopp (t * x2) / inject_Z ((k + 1) * (k + 2))) in
      series n' (k + 2) t' (Qred (acc + t)) x2
  end.

Definition terms : nat := 14.

Definition sin_taylor (x : f32) : f32 :=
  match x with
  | S754_zero _ => x
  | S754_finite _ _ _ =>
      let q := Q_of_f32 x in
      f32_of_Q (series terms 1 q 0%Q (Qred (q * q)))
  | _ => S754_nan
  end.

Definition cos_taylor (x : f32) : f32 :=
  match x with
  | S754_zero _ => f_1_0
  | S754_finite _ _ _ =>
      let q := Q_of_f32 x in
      f32_of_Q (series terms 0 1%Q 0%Q (Qred (q * q)))
  | _ => S754_nan
  end.

Definition libm : Libm := {| sinf := sin_taylor; cosf := cos_taylor |}.

End RefLibm.

(** ** Matrix builder (Triangle.cpp, lines 75-105)

    A matrix is the caller's [float*] buffer, a list of binary32 values;
    [matrix[i] = v] is the indexed update [<[i:=v]> matrix].  Every call
    site passes a [float[16]] array, so every index written is in range. *)

Definition store (i : nat) (v : f32) (matrix : list f32) : list f32 :=
  <[i:=v]> matrix.

(** [for (int i = 0; i < 16; i++) body i] *)
Definition for16 {A} (body : nat -> A -> A) (a : A) : A :=
  foldl (fun acc i => body i acc) a (seq 0 16).

Definition identityMatrix (matrix : list f32) : list f32 :=
  for16 (fun i m => store i (if (i mod 5 =? 0)%nat then f_1_0 else f_0_0) m)
        matrix.

Section WithLibm.
Context `{Libm}.

(** The argument of [cosf] and [sinf]: [angle * M_PI / 180.0f] is
    evaluated in [double] and converted back for the [float] call. *)
Definition radians (angle : f32) : f32 :=
  d2f (ddiv (dmul (f2d angle) M_PI) (f2d f_180_0)).

Definition createRotationMatrix (angle : f32) (matrix : list f32)
  : list f32 :=
  let matrix := identityMatrix matrix in
  let cosAngle := cosf (radians angle) in
  let sinAngle := sinf (radians angle) in
  let matrix := store 0 cosAngle matrix in
  let matrix := store 1 (fneg sinAngle) matrix in
  let matrix := store 4 sinAngle matrix in
  store 5 cosAngle matrix.

End WithLibm.

Definition createTranslationMatrix (x y : f32) (matrix : list f32)
  : list f32 :=
  let matrix := identityMatrix matrix in
  let matrix := store 3 x matrix in
  store 7 y matrix.

Definition createScalingMatrix (scaleX scaleY : f32) (matrix : list f32)
  : list f32 :=
  let matrix := identityMatrix matrix in
  let matrix := store 0 scaleX matrix in
  store 5 scaleY matrix.

(** ** Shader manager (Triangle.cpp, lines 32-46)

    The OpenGL driver is outside the repository.  Its shader objects are
    kept in a table by name; its GLSL compiler is an interface that maps
    a shader kind and a source text to a status and an information log.
    Code that talks to the driver runs in a monad over the driver state
    and the text written to [std::cerr], whose results say whether the
    call returned or the process was ended. *)

Module GL.

Definition GLuint := N.
Definition GLenum := N.
Definition GLint := Z.
Definition GLsizei := Z.

Definition GL_FRAGMENT_SHADER : GLenum := 0x8B30%N.
Definition GL_VERTEX_SHADER : GLenum := 0x8B31%N.
Definition GL_COMPILE_STATUS : GLenum := 0x8B81%N.
Definition GL_TRUE : GLint := 1.
Definition GL_FALSE : GLint := 0.

Class Compiler := {
  glsl_compile : GLenum -> string -> bool * string
}.

Record shader_object := {
  sh_type : GLenum;
  sh_source : string;
  sh_status : bool;
  sh_log : string
}.

Record driver := {
  shaders : gmap N shader_object;
  next_name : GLuint
}.

Record world := {
  gl : driver;
  cerr : string
}.

Inductive outcome (A : Type) : Type :=
| Returns (a : A) (w : world)
| Aborts (status : Z) (w : world).
Arguments Returns {A} a w.
Arguments Aborts {A} status w.

Definition M (A : Type) : Type := world -> outcome A.

Definition ret {A} (a : A) : M A := fun w => Returns a w.

Definition bind {A B} (m : M A) (k : A -> M B) : M B :=
  fun w =>
    match m w with
    | Returns a w' => k a w'
    | Aborts status w' => Aborts status w'
    end.

Definition with_driver {A} (f : driver -> A * driver) : M A :=
  fun w => let '(a, d) := f (gl w) in Returns a {| gl := d; cerr := cerr w |}.

(** [std::cerr << s] *)
Definition cerr_put (s : string) : M unit :=
  fun w => Returns tt {| gl := gl w; cerr := cerr w +:+ s |}.

Definition update_shader (shader : GLuint)
           (f : shader_object -> shader_object) (d : driver) : driver :=
  {| shaders := alter f shader (shaders d); next_name := next_name d |}.

(** A new, empty shader object under a fresh non-zero name. *)
Definition glCreateShader (type : GLenum) : M GLuint :=
  with_driver (fun d =>
    let name := N.succ (next_name d) in
    (name,
     {| shaders := <[name := {| sh_type := type; sh_source := EmptyString;
                                 sh_status := false; sh_log := EmptyString |}]>
                     (shaders d);
        next_name := name |})).

Definition glShaderSource (shader : GLuint) (source : string) : M unit :=
  with_driver (fun d =>
    (tt, update_shader shader
           (fun o => {| sh_type := sh_type o; sh_source := source;
                        sh_status := sh_status o; sh_log := sh_log o |}) d)).

Section WithCompiler.
Context `{Compiler}.

Definition glCompileShader (shader : GLuint) : M unit :=
  with_driver (fun d =>
    (tt, update_shader shader
           (fun o =>
              let '(ok, log) := glsl_compile (sh_type o) (sh_source o) in
              {| sh_type := sh_type o; sh_source := sh_source o;
                 sh_status := ok; sh_log := log |}) d)).
End WithCompiler.

(** [glGetShaderiv(shader, GL_COMPILE_STATUS, &success)] *)
Definition glGetShaderiv (shader : GLuint) (pname : GLenum) : M GLint :=
  with_driver (fun d =>
    (match shaders d !! shader with
     | Some o => if sh_status o then GL_TRUE else GL_FALSE
     | None => GL_FALSE
     end, d)).

(** [glGetShaderInfoLog(shader, bufSize, nullptr, infoLog)]: at most
    [bufSize - 1] characters of the log and a terminating NUL are
    written to the buffer; the result is the C string then held. *)
Definition glGetShaderInfoLog (shader : GLuint) (bufSize : GLsizei)
  : M string :=
  with_driver (fun d =>
    (match shaders d !! shader with
     | Some o => String.substring 0 (Z.to_nat (bufSize - 1)) (sh_log o)
     | None => EmptyString
     end, d)).

End GL.
Import GL.

#[global] Instance M_ret : MRet M := @GL.ret.
#[global] Instance M_bind : MBind M := fun A B k m => GL.bind m k.

(** ['\n'] and [std::endl] both put a line feed on the stream. *)
Definition endl : string := String (Ascii.ascii_of_nat 10) EmptyString.

Definition COMPILATION_FAILED : string :=
  "ERROR::SHADER::COMPILATION_FAILED" +:+ endl.

Section ShaderManager.
Context `{Compiler}.

Definition compileShader (type : GLenum) (source : string) : M GLuint :=
  shader ← glCreateShader type;
  glShaderSource shader source;;
  glCompileShader shader;;
  success ← glGetShaderiv shader GL_COMPILE_STATUS;
  (if (success =? 0)%Z
   then infoLog ← glGetShaderInfoLog shader 512;
        cerr_put (COMPILATION_FAILED +:+ infoLog +:+ endl)
   else mret tt);;
  mret shader.

End ShaderManager.

(** ** Render loop (Triangle.cpp, lines 157-231)

    The locals of [main] that live across iterations, and the window's
    close flag that [glfwWindowShouldClose] reads. *)

Record State := mkState {
  translationX : f32;
  translationY : f32;
  rotationAngle : f32;
  isJumping : bool;
  jumpHeight : f32;
  jumpSpeed : f32;
  jumpStartTime : f32;
  jumpDuration : f32;
  deltaTime : f32;
  lastFrame : f32;
  windowShouldClose : bool
}.

(** What one iteration reads from outside: the clock, the keys polled
    with [glfwGetKey], a close request delivered by [glfwPollEvents], and
    the indeterminate contents of the three arrays declared in the loop
    body. *)
Record Frame := mkFrame {
  glfwGetTime : f64;
  GLFW_KEY_ESCAPE : bool;
  GLFW_KEY_LEFT : bool;
  GLFW_KEY_RIGHT : bool;
  GLFW_KEY_SPACE : bool;
  close_requested : bool;
  transform_uninit : nat -> f32;
  rotation_uninit : nat -> f32;
  finalTransform_uninit : nat -> f32
}.

(** [float a[16];] with indeterminate contents [g]. *)
Definition float16 (g : nat -> f32) : list f32 := g <$> seq 0 16.

#[global] Instance spec_float_inhabited : Inhabited spec_float :=
  populate S754_nan.

Definition initial_state : State :=
  {| translationX := fneg f_1_0;
     translationY := fneg f_0_75;
     rotationAngle := f_0_0;
     isJumping := false;
     jumpHeight := f_0_0;
     jumpSpeed := f_0_1;
     jumpStartTime := f_0_0;
     jumpDuration := f_1_0;
     deltaTime := f_0_0;
     lastFrame := f_0_0;
     windowShouldClose := false |}.

Definition set_translationX (v : f32) (st : State) : State :=
  mkState v (translationY st) (rotationAngle st) (isJumping st)
          (jumpHeight st) (jumpSpeed st) (jumpStartTime st) (jumpDuration st)
          (deltaTime st) (lastFrame st) (windowShouldClose st).

Definition set_isJumping (v : bool) (st : State) : State :=
  mkState (translationX st) (translationY st) (rotationAngle st) v
          (jumpHeight st) (jumpSpeed st) (jumpStartTime st) (jumpDuration st)
          (deltaTime st) (lastFrame st) (windowShouldClose st).

Definition set_jumpHeight (v : f32) (st : State) : State :=
  mkState (translationX st) (translationY st) (rotationAngle st)
          (isJumping st) v (jumpSpeed st) (jumpStartTime st) (jumpDuration st)
          (deltaTime st) (lastFrame st) (windowShouldClose st).

Definition set_jumpStartTime (v : f32) (st : State) : State :=
  mkState (translationX st) (translationY st) (rotationAngle st)
          (isJumping st) (jumpHeight st) (jumpSpeed st) v (jumpDuration st)
          (deltaTime st) (lastFrame st) (windowShouldClose st).

Definition set_deltaTime (v : f32) (st : State) : State :=
  mkState (translationX st) (translationY st) (rotationAngle st)
          (isJumping st) (jumpHeight st) (jumpSpeed st) (jumpStartTime st)
          (jumpDuration st) v (lastFrame st) (windowShouldClose st).

Definition set_lastFrame (v : f32) (st : State) : State :=
  mkState (translationX st) (translationY st) (rotationAngle st)
          (isJumping st) (jumpHeight st) (jumpSpeed st) (jumpStartTime st)
          (jumpDuration st) (deltaTime st) v (windowShouldClose st).

(** [glfwSetWindowShouldClose(window, v)] *)
Definition glfwSetWindowShouldClose (v : bool) (st : State) : State :=
  mkState (translationX st) (translationY st) (rotationAngle st)
          (isJumping st) (jumpHeight st) (jumpSpeed st) (jumpStartTime st)
          (jumpDuration st) (deltaTime st) (lastFrame st) v.

(** Lines 175-177. *)
Definition update_time (currentFrame : f32) (st : State) : State :=
  let st := set_deltaTime (fsub currentFrame (lastFrame st)) st in
  set_lastFrame currentFrame st.

(** Lines 180-196: Escape, Left, Right, then Space. *)
Definition process_input (keys : Frame) (currentFrame : f32) (st : State)
  : State :=
  let st := if GLFW_KEY_ESCAPE keys
            then glfwSetWindowShouldClose true st else st in
  let st := if GLFW_KEY_LEFT keys
            then set_translationX (fsub (translationX st) f_0_01) st
            else st in
  let st := if GLFW_KEY_RIGHT keys
            then set_translationX (fadd (translationX st) f_0_01) st
            else st in
  if GLFW_KEY_SPACE keys && negb (isJumping st)
  then set_jumpStartTime currentFrame (set_isJumping true st)
  else st.

(** Line 200. *)
Definition jumpProgress (currentFrame : f32) (st : State) : f32 :=
  fdiv (fsub currentFrame (jumpStartTime st)) (jumpDuration st).

Section RenderLoop.
Context `{Libm}.

(** Line 202: [sinf(jumpProgress * M_PI) * 0.5f]; the product with
    [M_PI] is a [double], narrowed for [sinf]. *)
Definition jump_arc (progress : f32) : f32 :=
  fmul (sinf (d2f (dmul (f2d progress) M_PI))) f_0_5.

(** Lines 199-208. *)
Definition handle_jump (currentFrame : f32) (st : State) : State :=
  if isJumping st then
    let p := jumpProgress currentFrame st in
    if flt p f_1_0
    then set_jumpHeight (jump_arc p) st
    else set_isJumping false (set_jumpHeight f_0_0 st)
  else st.

(** Lines 211-219: the array handed to [glUniformMatrix4fv]. *)
Definition build_transform (fr : Frame) (st : State) : list f32 :=
  let transform := float16 (transform_uninit fr) in
  let transform := identityMatrix transform in
  let transform :=
    createTranslationMatrix (translationX st)
      (fadd (translationY st) (jumpHeight st)) transform in
  let rotation := float16 (rotation_uninit fr) in
  let rotation := createRotationMatrix (rotationAngle st) rotation in
  let finalTransform := float16 (finalTransform_uninit fr) in
  for16 (fun i finalTransform => store i (transform !!! i) finalTransform)
        finalTransform.

(** One iteration of the [while] body: the state at the next loop test
    and the matrix uploaded to the [transform] uniform. *)
Definition frame (st : State) (fr : Frame) : State * list f32 :=
  let currentFrame := d2f (glfwGetTime fr) in
  let st := update_time currentFrame st in
  let st := process_input fr currentFrame st in
  let st := handle_jump currentFrame st in
  let uploaded := build_transform fr st in
  let st := if close_requested fr
            then glfwSetWindowShouldClose true st else st in
  (st, uploaded).

(** [while (!glfwWindowShouldClose(window)) { ... }] over the frames
    the environment supplies. *)
Fixpoint render_loop (frames : list Frame) (st : State) : State :=
  match frames with
  | [] => st
  | fr :: frames' =>
      if windowShouldClose st then st
      else render_loop frames' (fst (frame st fr))
  end.

(** The states the loop test can see. *)
Inductive reachable : State -> Prop :=
| reach_init : reachable initial_state
| reach_frame st fr :
    reachable st -> windowShouldClose st = false ->
    reachable (fst (frame st fr)).

End RenderLoop.

(** Frames for examples: a clock that ticks in 1/64 s and the keys
    given. *)
Definition tick (k : nat) : f64 :=
  binary_normalize prec64 emax64 (Z.of_nat k) (-6) false.

Definition keys_at (k : nat) (left right space : bool) : Frame :=
  {| glfwGetTime := tick k;
     GLFW_KEY_ESCAPE := false;
     GLFW_KEY_LEFT := left;
     GLFW_KEY_RIGHT := right;
     GLFW_KEY_SPACE := space;
     close_requested := false;
     transform_uninit := fun _ => S754_nan;
     rotation_uninit := fun _ => S754_nan;
     finalTransform_uninit := fun _ => S754_nan |}.

Definition hold_left (n : nat) : list Frame :=
  (fun k => keys_at k true false false) <$> seq 1 n.

(** * Vocabulary of the properties *)

(** The indices of the main diagonal of a row-major 4x4 matrix. *)
Definition on_diagonal (i : nat) : bool :=
  bool_decide (i ∈ [0; 5; 10; 15]%nat).

(** Equality of matrices entry by entry under the C++ [==] on [float]. *)
Definition mat_eq (a b : list f32) : Prop :=
  Forall2 (fun x y => feq x y = true) a b.

(** C99 Annex F.10.1: [sin(±0)] is [±0] and [cos(±0)] is [1]. *)
Definition annexF_at_zero `{Libm} : Prop :=
  forall s, sinf (S754_zero s) = S754_zero s /\ cosf (S754_zero s) = f_1_0.


(** [rotationAngle] is never assigned by the loop; these two updates are
    only used to vary the inputs of [createRotationMatrix] in
    statements. *)
Definition with_rotationAngle (v : f32) (st : State) : State :=
  mkState (translationX st) (translationY st) v (isJumping st)
          (jumpHeight st) (jumpSpeed st) (jumpStartTime st) (jumpDuration st)
          (deltaTime st) (lastFrame st) (windowShouldClose st).

Definition with_rotation_uninit (g : nat -> f32) (fr : Frame) : Frame :=
  mkFrame (glfwGetTime fr) (GLFW_KEY_ESCAPE fr) (GLFW_KEY_LEFT fr)
          (GLFW_KEY_RIGHT fr) (GLFW_KEY_SPACE fr) (close_requested fr)
          (transform_uninit fr) g (finalTransform_uninit fr).

(** The horizontal offset after the two key tests of lines 184-187. *)
Definition offset_after (left right : bool) (x : f32) : f32 :=
  match left, right with
  | true, false => fsub x f_0_01
  | false, true => fadd x f_0_01
  | true, true => fadd (fsub x f_0_01) f_0_01
  | false, false => x
  end.

(** [fabsf]: the magnitude of a float. *)
Definition fabs : f32 -> f32 := SFabs.

(** A positive binary32 value above the lowest binade, that is, at
    least 2^-125: a bound whose half is again a float. *)
Definition positive_normal (b : f32) : bool :=
  match b with
  | S754_finite false m e => valid32 b && (-149 <? e)
  | _ => false
  end.

(** The float [1 - j * 2^-24]: for [1 <= j <= 2^23], the [j]-th binary32
    value below 1.0f. *)
Definition below_one (j : Z) : f32 :=
  S754_finite false (Z.to_pos (16777216 - j)) (-24).

(** * Further vocabulary: the rest of the render loop *)

Definition is_finite (x : spec_float) : bool :=
  match x with
  | S754_zero _ | S754_finite _ _ _ => true
  | _ => false
  end.

(** The same frame with other answers for Escape and the close request,
    for the arrow keys, and the same state with other clock fields:
    used to state what a frame does not depend on. *)
Definition with_exit_keys (escape close : bool) (fr : Frame) : Frame :=
  mkFrame (glfwGetTime fr) escape (GLFW_KEY_LEFT fr) (GLFW_KEY_RIGHT fr)
          (GLFW_KEY_SPACE fr) close (transform_uninit fr)
          (rotation_uninit fr) (finalTransform_uninit fr).

Definition with_arrow_keys (left right : bool) (fr : Frame) : Frame :=
  mkFrame (glfwGetTime fr) (GLFW_KEY_ESCAPE fr) left right
          (GLFW_KEY_SPACE fr) (close_requested fr) (transform_uninit fr)
          (rotation_uninit fr) (finalTransform_uninit fr).

Definition with_clock (dt last : f32) (st : State) : State :=
  set_lastFrame last (set_deltaTime dt st).

(** A frame that asks the loop to stop. *)
Definition closes (fr : Frame) : bool :=
  GLFW_KEY_ESCAPE fr || close_requested fr.

(** A libm for examples: the polynomials of [RefLibm], with NaN in place
    of a result that is not a binary32 value at most 1. *)
Definition guarded (y : f32) : f32 :=
  if valid32 y && fle y f_1_0 then y else S754_nan.

Definition guarded_libm : Libm :=
  {| sinf := fun x => guarded (RefLibm.sin_taylor x);
     cosf := fun x => guarded (RefLibm.cos_taylor x) |}.

(** * The rest of the program: shader program, start-up and shutdown

    [createShaderProgram] (lines 49-72) and [main] (lines 107-242) use
    more of the driver than [compileShader]: program objects, whose link
    status and log they read back.  They run on a machine that holds the
    program table beside the shader table and the error stream.  Every
    other call they make to GLFW, GLEW and OpenGL is recorded in the
    order it is made; its answer, where the code reads one, is given by
    the platform. *)

(** The raw string literals of lines 11-29, line by line. *)
Definition raw_lines (ls : list string) : string :=
  foldr (fun l s => l +:+ endl +:+ s) EmptyString ls.

Definition vertexShaderSource : string :=
  raw_lines [ "";
              "#version 330 core";
              "layout(location = 0) in vec3 aPos;";
              "uniform mat4 transform;";
              "void main()";
              "{";
              "    gl_Position = transform * vec4(aPos, 1.0);";
              "}" ].

Definition fragmentShaderSource : string :=
  raw_lines [ "";
              "#version 330 core";
              "out vec4 FragColor;";
              "void main()";
              "{";
              "    FragColor = vec4(0.4, 0.8, 0.6, 1.0);";
              "}" ].

Definition f_0_25 : f32 := Eval vm_compute in lit32 25 2.         (* 0.25f *)

(** Lines 130-134. *)
Definition vertices : list f32 :=
  [ f_0_0; f_0_25; f_0_0;
    fneg f_0_25; fneg f_0_25; f_0_0;
    f_0_25; fneg f_0_25; f_0_0 ].

Definition GL_LINK_STATUS : GLenum := 0x8B82%N.
Definition GL_ARRAY_BUFFER : GLenum := 0x8892%N.
Definition GL_STATIC_DRAW : GLenum := 0x88E4%N.
Definition GL_FLOAT : GLenum := 0x1406%N.
Definition GL_TRIANGLES : GLenum := 0x0004%N.
Definition GL_COLOR_BUFFER_BIT : N := 0x4000%N.

(** The linker of the driver: from the shader objects attached to a
    program to a link status and an information log. *)
Class Linker := {
  glsl_link : list shader_object -> bool * string
}.

Record program_object := {
  pr_attached : list GLuint;
  pr_status : bool;
  pr_log : string
}.

Inductive call : Type :=
| GlfwInit
| GlfwCreateWindow (width height : Z) (title : string)
| GlfwMakeContextCurrent (window : N)
| GlewInit
| GlfwTerminate
| GlGenVertexArrays (n : Z)
| GlGenBuffers (n : Z)
| GlBindVertexArray (array : GLuint)
| GlBindBuffer (target : GLenum) (buffer : GLuint)
| GlBufferData (target : GLenum) (size : Z) (data : list f32)
               (usage : GLenum)
| GlVertexAttribPointer (index : GLuint) (size : GLint) (type : GLenum)
                        (normalized : bool) (stride : Z) (pointer : Z)
| GlEnableVertexAttribArray (index : GLuint)
| GlDeleteShader (shader : GLuint)
| GlUseProgram (program : GLuint)
| GlUniformMatrix4fv (location : GLint) (count : Z) (transpose : bool)
                     (value : list f32)
| GlClear (mask : N)
| GlDrawArrays (mode : GLenum) (first : GLint) (count : Z)
| GlfwSwapBuffers (window : N)
| GlfwPollEvents
| GlDeleteVertexArrays (n : Z) (array : GLuint)
| GlDeleteBuffers (n : Z) (buffer : GLuint)
| GlDeleteProgram (program : GLuint)
| GlfwDestroyWindow (window : N).

Record machine := {
  io : world;
  programs : gmap N program_object;
  calls : list call
}.

(** A process that has made no call and written nothing. *)
Definition boot : machine :=
  {| io := {| gl := {| shaders := ∅; next_name := 0%N |};
              cerr := EmptyString |};
     programs := ∅; calls := [] |}.

Inductive result (A : Type) : Type :=
| Done (a : A) (m : machine)
| Halted (status : Z) (m : machine).
Arguments Done {A} a m.
Arguments Halted {A} status m.

Definition Prog (A : Type) : Type := machine -> result A.

#[global] Instance Prog_ret : MRet Prog := fun A a m => Done a m.
#[global] Instance Prog_fmap : FMap Prog :=
  fun A B f c m =>
    match c m with
    | Done a m' => Done (f a) m'
    | Halted status m' => Halted status m'
    end.
#[global] Instance Prog_bind : MBind Prog :=
  fun A B k c m =>
    match c m with
    | Done a m' => k a m'
    | Halted status m' => Halted status m'
    end.

Definition with_io (w : world) (m : machine) : machine :=
  {| io := w; programs := programs m; calls := calls m |}.

(** Code of the shader manager, run on the machine. *)
Definition lift {A} (c : M A) : Prog A :=
  fun m =>
    match c (io m) with
    | Returns a w => Done a (with_io w m)
    | Aborts status w => Halted status (with_io w m)
    end.

(** A call that is recorded and not interpreted further. *)
Definition record_call (c : call) : Prog unit :=
  fun m => Done tt {| io := io m; programs := programs m;
                      calls := calls m ++ [c] |}.

Definition with_programs (f : gmap N program_object -> gmap N program_object)
           (m : machine) : machine :=
  {| io := io m; programs := f (programs m); calls := calls m |}.

(** A new, empty program object.  Shader and program objects share one
    name space, so the name comes from the counter of [glCreateShader]. *)
Definition glCreateProgram : Prog GLuint :=
  fun m =>
    let name := N.succ (next_name (gl (io m))) in
    Done name
      {| io := {| gl := {| shaders := shaders (gl (io m));
                           next_name := name |};
                  cerr := cerr (io m) |};
         programs := <[name := {| pr_attached := [];
                                  pr_status := false;
                                  pr_log := EmptyString |}]> (programs m);
         calls := calls m |}.

Definition glAttachShader (program shader : GLuint) : Prog unit :=
  fun m =>
    Done tt (with_programs
               (alter (fun o => {| pr_attached := pr_attached o ++ [shader];
                                   pr_status := pr_status o;
                                   pr_log := pr_log o |}) program) m).

Section WithLinker.
Context `{Linker}.

(** Links the shader objects attached to the program, in the order of
    attachment. *)
Definition glLinkProgram (program : GLuint) : Prog unit :=
  fun m =>
    Done tt (with_programs
               (alter (fun o =>
                         let '(ok, log) :=
                           glsl_link
                             (omap (fun s => shaders (gl (io m)) !! s)
                                   (pr_attached o)) in
                         {| pr_attached := pr_attached o;
                            pr_status := ok; pr_log := log |}) program) m).

End WithLinker.

(** [glGetProgramiv(program, GL_LINK_STATUS, &success)] *)
Definition glGetProgramiv (program : GLuint) (pname : GLenum) : Prog GLint :=
  fun m =>
    Done (match programs m !! program with
          | Some o => if pr_status o then GL_TRUE else GL_FALSE
          | None => GL_FALSE
          end) m.

(** [glGetProgramInfoLog(program, bufSize, nullptr, infoLog)], like
    [glGetShaderInfoLog]. *)
Definition glGetProgramInfoLog (program : GLuint) (bufSize : GLsizei)
  : Prog string :=
  fun m =>
    Done (match programs m !! program with
          | Some o => String.substring 0 (Z.to_nat (bufSize - 1)) (pr_log o)
          | None => EmptyString
          end) m.

Definition LINKING_FAILED : string :=
  "ERROR::SHADER::PROGRAM::LINKING_FAILED" +:+ endl.

Section ShaderProgram.
Context `{Compiler} `{Linker}.

(** Lines 49-72. *)
Definition createShaderProgram : Prog GLuint :=
  vertexShader ← lift (compileShader GL_VERTEX_SHADER vertexShaderSource);
  fragmentShader ←
    lift (compileShader GL_FRAGMENT_SHADER fragmentShaderSource);
  shaderProgram ← glCreateProgram;
  glAttachShader shaderProgram vertexShader;;
  glAttachShader shaderProgram fragmentShader;;
  glLinkProgram shaderProgram;;
  success ← glGetProgramiv shaderProgram GL_LINK_STATUS;
  (if (success =? 0)%Z
   then infoLog ← glGetProgramInfoLog shaderProgram 512;
        lift (cerr_put (LINKING_FAILED +:+ infoLog +:+ endl))
   else mret tt);;
  record_call (GlDeleteShader vertexShader);;
  record_call (GlDeleteShader fragmentShader);;
  mret shaderProgram.

End ShaderProgram.

(** What the platform answers to [main]: the three initialisations, the
    names [glGenVertexArrays] and [glGenBuffers] hand out, the location
    the driver gives for a uniform name of a program (it sees the program
    object as it stands, linked or not), and the frames the loop gets to
    see. *)
Record Platform := {
  glfwInit : bool;
  glfwCreateWindow : option N;
  glewInit_is_GLEW_OK : bool;
  glGenVertexArrays : GLuint;
  glGenBuffers : GLuint;
  uniform_location : GLuint -> option program_object -> string -> GLint;
  frames : list Frame
}.

(** [std::cerr << s << std::endl] *)
Definition cerr_line (s : string) : Prog unit :=
  lift (cerr_put (s +:+ endl)).

Section Main.
Context `{Libm} `{Compiler} `{Linker}.
Variable pf : Platform.

(** [glGetUniformLocation(program, name)]: a query; the driver answers
    from the program object under that name. *)
Definition glGetUniformLocation (program : GLuint) (name : string)
  : Prog GLint :=
  fun m => Done (uniform_location pf program (programs m !! program) name) m.

(** Lines 211-230 of the loop body: the calls of one iteration, with the
    matrix that [frame] uploads. *)
Definition draw_frame (window : N) (VAO shaderProgram : GLuint)
           (finalTransform : list f32) : Prog unit :=
  location ← glGetUniformLocation shaderProgram "transform";
  record_call (GlUniformMatrix4fv location 1 true finalTransform);;
  record_call (GlClear GL_COLOR_BUFFER_BIT);;
  record_call (GlUseProgram shaderProgram);;
  record_call (GlBindVertexArray VAO);;
  record_call (GlDrawArrays GL_TRIANGLES 0 3);;
  record_call (GlBindVertexArray 0%N);;
  record_call (GlfwSwapBuffers window);;
  record_call GlfwPollEvents.

(** Lines 173-231.  The result says whether the loop test found the close
    flag set ([true]) or the platform had no further frame to offer while
    the window was still open ([false]). *)
Fixpoint main_loop (window : N) (VAO shaderProgram : GLuint)
         (fs : list Frame) (st : State) : Prog (bool * State) :=
  if windowShouldClose st then mret (true, st)
  else match fs with
       | [] => mret (false, st)
       | fr :: fs' =>
           draw_frame window VAO shaderProgram (snd (frame st fr));;
           main_loop window VAO shaderProgram fs' (fst (frame st fr))
       end.

(** Lines 107-242.  [Some status] is the value [main] returns; [None]
    stands for a process still in its render loop. *)
Definition main : Prog (option Z) :=
  record_call GlfwInit;;
  if negb (glfwInit pf) then
    cerr_line "Failed to initialize GLFW";;
    mret (Some (-1))
  else
    record_call (GlfwCreateWindow 1920 1080 "Controllable Triangle");;
    match glfwCreateWindow pf with
    | None =>
        cerr_line "Failed to create GLFW window";;
        record_call GlfwTerminate;;
        mret (Some (-1))
    | Some window =>
        record_call (GlfwMakeContextCurrent window);;
        record_call GlewInit;;
        if negb (glewInit_is_GLEW_OK pf) then
          cerr_line "Failed to initialize GLEW";;
          record_call GlfwTerminate;;
          mret (Some (-1))
        else
          let VAO := glGenVertexArrays pf in
          let VBO := glGenBuffers pf in
          record_call (GlGenVertexArrays 1);;
          record_call (GlGenBuffers 1);;
          record_call (GlBindVertexArray VAO);;
          record_call (GlBindBuffer GL_ARRAY_BUFFER VBO);;
          record_call (GlBufferData GL_ARRAY_BUFFER 36 vertices
                                    GL_STATIC_DRAW);;
          record_call (GlVertexAttribPointer 0%N 3 GL_FLOAT false 12 0);;
          record_call (GlEnableVertexAttribArray 0%N);;
          record_call (GlBindBuffer GL_ARRAY_BUFFER 0%N);;
          record_call (GlBindVertexArray 0%N);;
          shaderProgram ← createShaderProgram;
          record_call (GlUseProgram shaderProgram);;
          closed ← fst <$> main_loop window VAO shaderProgram (frames pf)
                                     initial_state;
          if closed : bool then
            record_call (GlDeleteVertexArrays 1 VAO);;
            record_call (GlDeleteBuffers 1 VBO);;
            record_call (GlDeleteProgram shaderProgram);;
            record_call (GlfwDestroyWindow window);;
            record_call GlfwTerminate;;
            mret (Some 0)
          else mret None
    end.

End Main.

(** The error stream [err] after a stage has reported: unchanged when the
    stage succeeded, else extended by the header line, the first 511
    characters of the stage's log and a line end. *)
Definition with_diagnostic (ok : bool) (header log err : string) : string :=
  if ok then err
  else err +:+ (header +:+ endl +:+ String.substring 0 511 log +:+ endl).

(** The shader object that [compileShader type source] leaves behind. *)
Definition compiled `{Compiler} (type : GLenum) (source : string)
  : shader_object :=
  {| sh_type := type; sh_source := source;
     sh_status := fst (glsl_compile type source);
     sh_log := snd (glsl_compile type source) |}.


(** The matrices the loop uploads, one per iteration it runs: the output
    that goes with the final state [render_loop] gives. *)
Fixpoint uploads `{Libm} (fs : list Frame) (st : State) : list (list f32) :=
  match fs with
  | [] => []
  | fr :: fs' =>
      if windowShouldClose st then []
      else snd (frame st fr) :: uploads fs' (fst (frame st fr))
  end.



Definition is_upload (c : call) : bool :=
  match c with GlUniformMatrix4fv _ _ _ _ => true | _ => false end.

(** The calls of [main] before the loop, between the loop and the return,
    and in one iteration, as lists. *)
Definition init_calls (window : N) : list call :=
  [ GlfwInit; GlfwCreateWindow 1920 1080 "Controllable Triangle";
    GlfwMakeContextCurrent window; GlewInit ].

Definition setup_calls (VAO VBO : GLuint) : list call :=
  [ GlGenVertexArrays 1; GlGenBuffers 1; GlBindVertexArray VAO;
    GlBindBuffer GL_ARRAY_BUFFER VBO;
    GlBufferData GL_ARRAY_BUFFER 36 vertices GL_STATIC_DRAW;
    GlVertexAttribPointer 0%N 3 GL_FLOAT false 12 0;
    GlEnableVertexAttribArray 0%N; GlBindBuffer GL_ARRAY_BUFFER 0%N;
    GlBindVertexArray 0%N ].

Definition frame_calls (location : GLint) (window : N)
           (VAO shaderProgram : GLuint) (finalTransform : list f32)
  : list call :=
  [ GlUniformMatrix4fv location 1 true finalTransform;
    GlClear GL_COLOR_BUFFER_BIT; GlUseProgram shaderProgram;
    GlBindVertexArray VAO; GlDrawArrays GL_TRIANGLES 0 3;
    GlBindVertexArray 0%N; GlfwSwapBuffers window; GlfwPollEvents ].

Definition cleanup_calls (window : N) (VAO VBO shaderProgram : GLuint)
  : list call :=
  [ GlDeleteVertexArrays 1 VAO; GlDeleteBuffers 1 VBO;
    GlDeleteProgram shaderProgram; GlfwDestroyWindow window;
    GlfwTerminate ].

(** A platform for examples: every initialisation succeeds, and a
    uniform has location 0 in a linked program and -1 otherwise. *)
Definition linked_location (o : option program_object) : GLint :=
  match o with
  | Some o => if pr_status o then 0 else -1
  | None => -1
  end.

Definition a_platform (fs : list Frame) : Platform :=
  {| glfwInit := true; glfwCreateWindow := Some 1%N;
     glewInit_is_GLEW_OK := true; glGenVertexArrays := 1%N;
     glGenBuffers := 1%N;
     uniform_location := fun _ o _ => linked_location o;
     frames := fs |}.

(** A driver for examples whose compiler rejects every source and whose
    linker accepts a program when all its shaders compiled. *)
Definition rejecting_compiler : Compiler :=
  {| glsl_compile := fun _ _ => (false, "0:1(1): error: syntax error") |}.

Definition accepting_compiler : Compiler :=
  {| glsl_compile := fun _ _ => (true, EmptyString) |}.

Definition strict_linker : Linker :=
  {| glsl_link := fun objs =>
       if forallb sh_status objs then (true, EmptyString)
       else (false, "error: linking with uncompiled shader") |}.



(** * Properties *)

(** ** Floating-point facts *)

Lemma digits2_pos_succ_le (p : positive) :
  (Zpos (digits2_pos (Pos.succ p)) <= Zpos (digits2_pos p) + 1)%Z.
Proof.
  induction p as [p IH|p IH|].
  - change (Pos.succ p~1) with (Pos.succ p)~0%positive.
    cbn [digits2_pos]. rewrite !Pos2Z.inj_succ. lia.
  - change (Pos.succ p~0) with p~1%positive.
    cbn [digits2_pos]. rewrite !Pos2Z.inj_succ. lia.
  - change (Pos.succ 1) with 2%positive.
    cbn [digits2_pos]. rewrite !Pos2Z.inj_succ. lia.
Qed.

Lemma digits2_pos_shl (n : nat) (m : positive) :
  Zpos (digits2_pos (Nat.iter n xO m)) = Zpos (digits2_pos m) + Z.of_nat n.
Proof.
  induction n as [|n IH]; [cbn [Nat.iter nat_rect]; lia|].
  change (Nat.iter (S n) xO m) with (Nat.iter n xO m)~0%positive.
  cbn [digits2_pos]. rewrite Pos2Z.inj_succ, IH. lia.
Qed.

(** Rounding a mantissa that already fits leaves it alone. *)
Lemma shr_fexp_fits (q : positive) (e : Z) :
  Z.max (Zpos (digits2_pos q) + e - 24) (-149) = e ->
  shr_fexp prec32 emax32 (Zpos q) e loc_Exact
  = ({| shr_m := Zpos q; shr_r := false; shr_s := false |}, e).
Proof.
  intros Hq. unfold shr_fexp, fexp, emin, prec32, emax32, Zdigits2.
  change (3 - 128 - 24) with (-149). rewrite Hq, Z.sub_diag. reflexivity.
Qed.

Lemma fle_small_exponent (s : bool) (q : positive) :
  fle (S754_finite s q (-149)) f_0_5 = true.
Proof. now destruct s. Qed.

Lemma fmul_half_le (y : f32) :
  valid32 y = true -> fle y f_1_0 = true -> fle (fmul y f_0_5) f_0_5 = true.
Proof.
  destruct y as [s|s| |s m e].
  - now destruct s.
  - now destruct s.
  - discriminate.
  - unfold valid32, valid_binary, bounded, canonical_mantissa, fexp, emin.
    intros Hv Hle.
    apply andb_prop in Hv as [Hcan Hmax].
    apply Z.eqb_eq in Hcan. apply Z.leb_le in Hmax.
    unfold prec32, emax32 in *.
    change (3 - 128 - 24) with (-149) in Hcan.
    change (128 - 24) with 104 in Hmax.
    pose proof (digits2_pos_shl 23 m) as Hd.
    change (Nat.iter 23 xO m) with (8388608 * m)%positive in Hd.
    change (Z.of_nat 23) with 23 in Hd.
    assert (Hd1 : 1 <= Zpos (digits2_pos m)) by lia.
    unfold fmul, SFmul, f_0_5, binary_round_aux.
    rewrite Bool.xorb_false_r, (Pos.mul_comm m).
    unfold shr_fexp at 1. unfold Zdigits2 at 1. rewrite Hd.
    unfold fexp, emin, prec32, emax32. change (3 - 128 - 24) with (-149).
    destruct (Z.eq_dec e (-149)) as [->|Hne].
    + (* smallest exponent: one bit is rounded away *)
      replace (Z.max (Zpos (digits2_pos m) + 23 + (-149 + -24) - 24) (-149)
               - (-149 + -24)) with 24 by lia.
      change (shr (shr_record_of_loc (Zpos (8388608 * m)) loc_Exact)
                  (-149 + -24) 24)
        with (shr_1 {| shr_m := Zpos m; shr_r := false; shr_s := false |},
              -149).
      assert (Hfit : forall q, Zpos (digits2_pos q) <= 24 ->
                shr_fexp prec32 emax32 (Zpos q) (-149) loc_Exact
                = ({| shr_m := Zpos q; shr_r := false; shr_s := false |},
                   -149))
        by (intros q Hq; apply shr_fexp_fits; lia).
      destruct m as [p|p|]; cbn [shr_1 shr_m loc_of_shr_record orb
                                 round_nearest_even].
      * cbn [digits2_pos] in *. rewrite Pos2Z.inj_succ in *.
        destruct (Z.even (Zpos p)).
        -- rewrite Hfit by lia. apply fle_small_exponent.
        -- change (Zpos p + 1) with (Zpos (p + 1)).
           rewrite Pos.add_1_r, Hfit
             by (pose proof (digits2_pos_succ_le p); lia).
           apply fle_small_exponent.
      * cbn [digits2_pos] in *. rewrite Pos2Z.inj_succ in *.
        rewrite Hfit by lia. apply fle_small_exponent.
      * now destruct s.
    + (* the product is exact *)
      assert (Hd24 : Zpos (digits2_pos m) = 24) by lia.
      replace (Z.max (Zpos (digits2_pos m) + 23 + (e + -24) - 24) (-149)
               - (e + -24)) with 23 by lia.
      change (shr (shr_record_of_loc (Zpos (8388608 * m)) loc_Exact)
                  (e + -24) 23)
        with ({| shr_m := Zpos m; shr_r := false; shr_s := false |},
              e + -24 + 23).
      cbn [shr_m loc_of_shr_record round_nearest_even].
      rewrite shr_fexp_fits by lia. cbn [shr_m].
      replace (e + -24 + 23 <=? 128 - 24) with true
        by (symmetry; apply Z.leb_le; lia).
      revert Hle. unfold fle, SFleb, SFcompare, f_1_0.
      destruct s; [reflexivity|].
      destruct (Z.compare_spec e (-23)),
               (Z.compare_spec (e + -24 + 23) (-24)); try lia; auto.
Qed.

(** Above the lowest binade, the product with 0.5f is exact: the same
    mantissa, the exponent one less. *)
Lemma fmul_half_exact (s : bool) (m : positive) (e : Z) :
  valid32 (S754_finite s m e) = true -> e <> -149 ->
  fmul (S754_finite s m e) f_0_5 = S754_finite s m (e - 1).
Proof.
  unfold valid32, valid_binary, bounded, canonical_mantissa, fexp, emin.
  intros Hv Hne.
  apply andb_prop in Hv as [Hcan Hmax].
  apply Z.eqb_eq in Hcan. apply Z.leb_le in Hmax.
  unfold prec32, emax32 in *.
  change (3 - 128 - 24) with (-149) in Hcan.
  change (128 - 24) with 104 in Hmax.
  pose proof (digits2_pos_shl 23 m) as Hd.
  change (Nat.iter 23 xO m) with (8388608 * m)%positive in Hd.
  change (Z.of_nat 23) with 23 in Hd.
  assert (Hd24 : Zpos (digits2_pos m) = 24) by lia.
  unfold fmul, SFmul, f_0_5, binary_round_aux.
  rewrite Bool.xorb_false_r, (Pos.mul_comm m).
  unfold shr_fexp at 1. unfold Zdigits2 at 1. rewrite Hd.
  unfold fexp, emin, prec32, emax32. change (3 - 128 - 24) with (-149).
  replace (Z.max (Zpos (digits2_pos m) + 23 + (e + -24) - 24) (-149)
           - (e + -24)) with 23 by lia.
  change (shr (shr_record_of_loc (Zpos (8388608 * m)) loc_Exact)
              (e + -24) 23)
    with ({| shr_m := Zpos m; shr_r := false; shr_s := false |},
          e + -24 + 23).
  cbn [shr_m loc_of_shr_record round_nearest_even].
  rewrite shr_fexp_fits by lia. cbn [shr_m].
  replace (e + -24 + 23 <=? 128 - 24) with true
    by (symmetry; apply Z.leb_le; lia).
  f_equal. lia.
Qed.

Lemma digits2_pos_lt (p : positive) :
  Zpos p < 2 ^ Zpos (digits2_pos p).
Proof.
  induction p as [p IH|p IH|]; cbn [digits2_pos];
    rewrite ?Pos2Z.inj_succ, ?Z.pow_succ_r by lia; lia.
Qed.

Lemma fmul_half_tiny_eq (s : bool) (m : positive) :
  valid32 (S754_finite s m (-149)) = true ->
  fmul (S754_finite s m (-149)) f_0_5
  = let mrs' := shr_1 {| shr_m := Zpos m; shr_r := false; shr_s := false |}
    in
    let '(mrs'', e'') :=
      shr_fexp prec32 emax32
        (round_nearest_even (shr_m mrs') (loc_of_shr_record mrs'))
        (-149) loc_Exact in
    match shr_m mrs'' with
    | Z0 => S754_zero s
    | Zpos q => if e'' <=? emax32 - prec32 then S754_finite s q e''
                else S754_infinity s
    | Zneg _ => S754_nan
    end.
Proof.
  unfold valid32, valid_binary, bounded, canonical_mantissa, fexp, emin.
  intros Hv.
  apply andb_prop in Hv as [Hcan Hmax].
  apply Z.eqb_eq in Hcan.
  unfold prec32, emax32 in *.
  change (3 - 128 - 24) with (-149) in Hcan.
  pose proof (digits2_pos_shl 23 m) as Hd.
  change (Nat.iter 23 xO m) with (8388608 * m)%positive in Hd.
  change (Z.of_nat 23) with 23 in Hd.
  assert (Hd1 : 1 <= Zpos (digits2_pos m)) by lia.
  unfold fmul, SFmul, f_0_5, binary_round_aux.
  rewrite Bool.xorb_false_r, (Pos.mul_comm m).
  unfold shr_fexp at 1. unfold Zdigits2 at 1. rewrite Hd.
  unfold fexp, emin, prec32, emax32. change (3 - 128 - 24) with (-149).
  replace (Z.max (Zpos (digits2_pos m) + 23 + (-149 + -24) - 24) (-149)
           - (-149 + -24)) with 24 by lia.
  reflexivity.
Qed.

(** In the lowest binade one bit is rounded away; what is left is zero
    or a mantissa of at most 2^23 at the lowest exponent. *)
Lemma fmul_half_tiny (s : bool) (m : positive) :
  valid32 (S754_finite s m (-149)) = true ->
  fmul (S754_finite s m (-149)) f_0_5 = S754_zero s \/
  exists q, fmul (S754_finite s m (-149)) f_0_5 = S754_finite s q (-149)
            /\ Zpos q <= 8388608.
Proof.
  intros Hv. rewrite (fmul_half_tiny_eq s m Hv).
  unfold valid32, valid_binary, bounded, canonical_mantissa, fexp, emin,
    prec32, emax32 in Hv.
  apply andb_prop in Hv as [Hcan _]. apply Z.eqb_eq in Hcan.
  change (3 - 128 - 24) with (-149) in Hcan.
  assert (Hm : Zpos m < 16777216).
  { pose proof (digits2_pos_lt m).
    assert (2 ^ Zpos (digits2_pos m) <= 2 ^ 24)
      by (apply Z.pow_le_mono_r; lia).
    change (2 ^ 24) with 16777216 in *. lia. }
  assert (Hfit : forall q, Zpos (digits2_pos q) <= 24 ->
            shr_fexp prec32 emax32 (Zpos q) (-149) loc_Exact
            = ({| shr_m := Zpos q; shr_r := false; shr_s := false |},
               -149))
    by (intros q Hq; apply shr_fexp_fits; lia).
  cbv zeta.
  destruct m as [p|p|]; cbn [shr_1 shr_m loc_of_shr_record orb
                             round_nearest_even].
  - cbn [digits2_pos] in Hcan. rewrite Pos2Z.inj_succ in Hcan.
    destruct (Z.even (Zpos p)).
    + rewrite Hfit by lia. right. exists p. split; [reflexivity | lia].
    + change (Zpos p + 1) with (Zpos (p + 1)).
      rewrite Pos.add_1_r, Hfit
        by (pose proof (digits2_pos_succ_le p); lia).
      right. exists (Pos.succ p). split; [reflexivity | lia].
  - cbn [digits2_pos] in Hcan. rewrite Pos2Z.inj_succ in Hcan.
    rewrite Hfit by lia. right. exists p. split; [reflexivity | lia].
  - now left.
Qed.

Lemma digits2_pos_ge (p : positive) :
  2 ^ (Zpos (digits2_pos p) - 1) <= Zpos p.
Proof.
  induction p as [p IH|p IH|]; cbn [digits2_pos];
    rewrite ?Pos2Z.inj_succ; [| |reflexivity];
    replace (Z.succ (Zpos (digits2_pos p)) - 1)
      with (Z.succ (Zpos (digits2_pos p) - 1)) by lia;
    rewrite Z.pow_succ_r by lia; lia.
Qed.

(** Halving keeps bounds: a float of magnitude at most [b] has a half of
    magnitude at most the half of [b]. *)
Lemma fmul_half_abs_le (y b : f32) :
  valid32 y = true -> positive_normal b = true ->
  fle (fabs y) b = true ->
  fle (fabs (fmul y f_0_5)) (fmul b f_0_5) = true.
Proof.
  intros Hy Hb Hle.
  destruct b as [| | |[] mb eb]; try discriminate.
  cbn [positive_normal] in Hb. apply andb_prop in Hb as [Hvb Heb].
  apply Z.ltb_lt in Heb.
  rewrite (fmul_half_exact false mb eb Hvb) by lia.
  destruct y as [s|s| |s m e].
  - now destruct s.
  - now destruct s.
  - discriminate.
  - destruct (Z.eq_dec e (-149)) as [->|Hne].
    + assert (Hexp : -149 <= eb - 1) by lia.
      assert (Hmb : 8388608 <= Zpos mb).
      { unfold valid32, valid_binary, bounded, canonical_mantissa, fexp,
          emin, prec32, emax32 in Hvb.
        apply andb_prop in Hvb as [Hcan _]. apply Z.eqb_eq in Hcan.
        change (3 - 128 - 24) with (-149) in Hcan.
        assert (Hd : Zpos (digits2_pos mb) = 24) by lia.
        pose proof (digits2_pos_ge mb) as Hge. rewrite Hd in Hge.
        exact Hge. }
      destruct (fmul_half_tiny s m Hy) as [->|(q & -> & Hq)].
      * now destruct s.
      * unfold fle, fabs, SFabs, SFleb, SFcompare.
        destruct (Z.compare_spec (-149) (eb - 1)); try lia.
        change PosDef.Pos.compare_cont with Pos.compare_cont.
        destruct (Pos.compare_cont Eq q mb) eqn:Hcmp; try reflexivity.
        change (Pos.compare_cont Eq q mb) with (Pos.compare q mb) in Hcmp.
        apply Pos.compare_gt_iff in Hcmp. lia.
    + rewrite (fmul_half_exact s m e Hy Hne).
      revert Hle. unfold fle, fabs, SFabs, SFleb, SFcompare.
      destruct (Z.compare_spec e eb), (Z.compare_spec (e - 1) (eb - 1));
        try lia; auto.
Qed.

(** The arguments [sinf] gets just before the end of a jump: for each of
    the 4096 floats below 1.0f the product with [M_PI], narrowed to
    float, lies below the float nearest to pi (13176795 * 2^-22), by at
    most as many units in the last place as the progress lies below
    1.0f. *)
Lemma sine_argument_below_one (j : Z) :
  1 <= j <= 4096 ->
  flt (below_one j) f_1_0 = true /\
  exists M : positive,
    d2f (dmul (f2d (below_one j)) M_PI) = S754_finite false M (-22) /\
    13176795 - j <= Zpos M <= 13176794.
Proof.
  intros Hj.
  assert (Hall :
    forallb (fun j =>
               flt (below_one j) f_1_0 &&
               match d2f (dmul (f2d (below_one j)) M_PI) with
               | S754_finite false M e =>
                   (e =? -22) && (13176795 - j <=? Zpos M)
                   && (Zpos M <=? 13176794)
               | _ => false
               end)
            (List.map Z.of_nat (seq 1 4096)) = true)
    by (vm_compute; reflexivity).
  rewrite forallb_forall in Hall.
  assert (Hin : In j (List.map Z.of_nat (seq 1 4096))).
  { apply in_map_iff. exists (Z.to_nat j). split; [lia|].
    apply in_seq. lia. }
  apply Hall in Hin. apply andb_prop in Hin as [Hlt Hw].
  split; [exact Hlt|].
  destruct (d2f (dmul (f2d (below_one j)) M_PI)) as [| | |[] M e];
    try discriminate.
  apply andb_prop in Hw as [Hw H2]. apply andb_prop in Hw as [He H1].
  apply Z.eqb_eq in He. apply Z.leb_le in H1, H2. subst e.
  exists M. split; [reflexivity | lia].
Qed.

Lemma SFcompare_antisym (a b : spec_float) :
  SFcompare b a = option_map CompOpp (SFcompare a b).
Proof.
  destruct a as [[]|[]| |[] m1 e1], b as [[]|[]| |[] m2 e2];
    cbn; try reflexivity;
    rewrite (Z.compare_antisym e1 e2);
    destruct (e1 ?= e2); cbn; try reflexivity;
    now rewrite (Pos.compare_cont_antisym m1 m2 Eq).
Qed.

Lemma fle_not_flt (a b : f32) : fle a b = true -> flt b a = false.
Proof.
  unfold fle, flt, SFleb, SFltb. rewrite (SFcompare_antisym a b).
  now destruct (SFcompare a b) as [[]|].
Qed.

(** ** Matrix builder *)

Ltac sixteen matrix :=
  do 16 (destruct matrix as [|? matrix]; [discriminate|]);
  destruct matrix; [|discriminate].

Ltac each_index i :=
  do 16 (destruct i as [|i]; [reflexivity|]); lia.

Lemma length_identityMatrix (matrix : list f32) :
  length (identityMatrix matrix) = length matrix.
Proof.
  unfold identityMatrix, for16, store. simpl.
  now rewrite !length_insert.
Qed.

Lemma RefLibm_annexF : @annexF_at_zero RefLibm.libm.
Proof. intros []; split; reflexivity. Qed.

(** C9. [identityMatrix] leaves 1.0 at indices 0, 5, 10 and 15 of the
    caller's 16-element buffer and 0.0 at every other index, whatever the
    buffer held before. *)
Theorem identityMatrix_entries (matrix : list f32) :
  length matrix = 16%nat ->
  length (identityMatrix matrix) = 16%nat /\
  forall i, (i < 16)%nat ->
    identityMatrix matrix !! i
    = Some (if on_diagonal i then f_1_0 else f_0_0).
Proof.
  intros Hlen. split.
  - now rewrite length_identityMatrix.
  - intros i Hi. sixteen matrix. each_index i.
Qed.

Lemma identityMatrix_entries_witness :
  identityMatrix (replicate 16 S754_nan) !! 5%nat = Some f_1_0 /\
  identityMatrix (replicate 16 S754_nan) !! 6%nat = Some f_0_0.
Proof.
  split.
  - apply (proj2 (identityMatrix_entries (replicate 16 S754_nan) eq_refl)
                 5%nat); lia.
  - apply (proj2 (identityMatrix_entries (replicate 16 S754_nan) eq_refl)
                 6%nat); lia.
Defined.

(** C3. [createTranslationMatrix x y] leaves 1 at indices 0, 5, 10 and
    15, [x] at index 3, [y] at index 7 and 0 at every other index of the
    caller's 16-element buffer, for all floats [x] and [y]. *)
Theorem createTranslationMatrix_entries (x y : f32) (matrix : list f32) :
  length matrix = 16%nat ->
  length (createTranslationMatrix x y matrix) = 16%nat /\
  forall i, (i < 16)%nat ->
    createTranslationMatrix x y matrix !! i
    = Some (if on_diagonal i then f_1_0
            else if (i =? 3)%nat then x
            else if (i =? 7)%nat then y
            else f_0_0).
Proof.
  intros Hlen. split.
  - unfold createTranslationMatrix, store.
    now rewrite !length_insert, length_identityMatrix.
  - intros i Hi. sixteen matrix. each_index i.
Qed.

Lemma createTranslationMatrix_entries_witness :
  createTranslationMatrix f_0_5 f_0_75 (replicate 16 S754_nan) !! 3%nat
  = Some f_0_5 /\
  createTranslationMatrix f_0_5 f_0_75 (replicate 16 S754_nan) !! 7%nat
  = Some f_0_75.
Proof.
  split.
  - apply (proj2 (createTranslationMatrix_entries f_0_5 f_0_75
                    (replicate 16 S754_nan) eq_refl) 3%nat); lia.
  - apply (proj2 (createTranslationMatrix_entries f_0_5 f_0_75
                    (replicate 16 S754_nan) eq_refl) 7%nat); lia.
Defined.

Lemma radians_zero (s : bool) : radians (S754_zero s) = S754_zero s.
Proof. now destruct s. Qed.

(** C4. For every angle in degrees, with [a] the float nearest to the
    double [angle * M_PI / 180], [createRotationMatrix] leaves [cosf a] at
    indices 0 and 5, [-sinf a] at index 1, [sinf a] at index 4, 1 at
    indices 10 and 15 and 0 at every other index of the 16-element buffer.
    For angle 0, on a libm that follows C99 at zero, every entry compares
    equal to the entry of the identity matrix (entry 1 is the float
    negative zero). *)
Theorem createRotationMatrix_entries `{Libm} (angle : f32)
        (matrix : list f32) :
  length matrix = 16%nat ->
  let a := d2f (ddiv (dmul (f2d angle) M_PI) (f2d f_180_0)) in
  (length (createRotationMatrix angle matrix) = 16%nat /\
   forall i, (i < 16)%nat ->
     createRotationMatrix angle matrix !! i
     = Some (match i with
             | 0 => cosf a
             | 1 => fneg (sinf a)
             | 4 => sinf a
             | 5 => cosf a
             | 10 | 15 => f_1_0
             | _ => f_0_0
             end%nat)) /\
  (feq angle f_0_0 = true -> annexF_at_zero ->
   mat_eq (createRotationMatrix angle matrix) (identityMatrix matrix)).
Proof.
  intros Hlen a. split; [split|].
  - unfold createRotationMatrix, store.
    now rewrite !length_insert, length_identityMatrix.
  - intros i Hi. sixteen matrix. each_index i.
  - intros Hz HF.
    destruct angle as [s|s| |s m e]; try discriminate;
      try (destruct s; discriminate).
    destruct (HF s) as [Hsin Hcos].
    sixteen matrix. unfold createRotationMatrix.
    rewrite radians_zero, Hsin, Hcos.
    destruct s; repeat constructor.
Qed.

Lemma createRotationMatrix_entries_witness :
  @createRotationMatrix RefLibm.libm f_0_0 (replicate 16 S754_nan) !! 1%nat
  = Some (S754_zero true) /\
  mat_eq (@createRotationMatrix RefLibm.libm f_0_0 (replicate 16 S754_nan))
         (identityMatrix (replicate 16 S754_nan)).
Proof.
  pose proof (@createRotationMatrix_entries RefLibm.libm f_0_0
                (replicate 16 S754_nan) eq_refl) as [[_ Hi] Hid].
  split.
  - apply (Hi 1%nat). lia.
  - apply Hid; [reflexivity | apply RefLibm_annexF].
Defined.

(** ** Render loop *)

Section RenderLoopFacts.
Context `{Libm}.

Lemma build_transform_eq (fr : Frame) (st : State) :
  build_transform fr st
  = [ f_1_0; f_0_0; f_0_0; translationX st;
      f_0_0; f_1_0; f_0_0; fadd (translationY st) (jumpHeight st);
      f_0_0; f_0_0; f_1_0; f_0_0;
      f_0_0; f_0_0; f_0_0; f_1_0 ].
Proof. reflexivity. Qed.

Lemma createTranslationMatrix_float16 (x y : f32) (g : nat -> f32) :
  createTranslationMatrix x y (float16 g)
  = [ f_1_0; f_0_0; f_0_0; x;
      f_0_0; f_1_0; f_0_0; y;
      f_0_0; f_0_0; f_1_0; f_0_0;
      f_0_0; f_0_0; f_0_0; f_1_0 ].
Proof. reflexivity. Qed.

Lemma frame_translationX (st : State) (fr : Frame) :
  translationX (fst (frame st fr))
  = offset_after (GLFW_KEY_LEFT fr) (GLFW_KEY_RIGHT fr) (translationX st).
Proof.
  unfold frame, handle_jump, process_input, update_time.
  destruct fr as [t esc l r sp cl g1 g2 g3]; cbn [fst GLFW_KEY_ESCAPE
    GLFW_KEY_LEFT GLFW_KEY_RIGHT GLFW_KEY_SPACE close_requested glfwGetTime].
  destruct st as [tx ty ra j h sp' js jd dt lf wc].
  destruct esc, l, r, sp, cl, j; cbn;
    repeat (match goal with |- context [if ?b then _ else _] =>
                              destruct b end; cbn); reflexivity.
Qed.

Lemma frame_translationY (st : State) (fr : Frame) :
  translationY (fst (frame st fr)) = translationY st.
Proof.
  unfold frame, handle_jump, process_input, update_time.
  destruct fr as [t esc l r sp cl g1 g2 g3]; cbn [fst GLFW_KEY_ESCAPE
    GLFW_KEY_LEFT GLFW_KEY_RIGHT GLFW_KEY_SPACE close_requested glfwGetTime].
  destruct st as [tx ty ra j h sp' js jd dt lf wc].
  destruct esc, l, r, sp, cl, j; cbn;
    repeat (match goal with |- context [if ?b then _ else _] =>
                              destruct b end; cbn); reflexivity.
Qed.

Lemma handle_jump_idle (currentFrame : f32) (st : State) :
  isJumping (handle_jump currentFrame st) = false ->
  (isJumping st = false -> jumpHeight st = f_0_0) ->
  jumpHeight (handle_jump currentFrame st) = f_0_0.
Proof.
  unfold handle_jump. destruct (isJumping st) eqn:Hj.
  - destruct (flt _ _); cbn; intros Hi _; [congruence | reflexivity].
  - intros _ Hinv. now apply Hinv.
Qed.

Lemma process_input_idle (fr : Frame) (currentFrame : f32) (st : State) :
  isJumping (process_input fr currentFrame st) = false ->
  isJumping st = false /\
  jumpHeight (process_input fr currentFrame st) = jumpHeight st.
Proof.
  unfold process_input.
  destruct (GLFW_KEY_ESCAPE fr), (GLFW_KEY_LEFT fr), (GLFW_KEY_RIGHT fr),
    (GLFW_KEY_SPACE fr), (isJumping st) eqn:Hj; cbn; rewrite ?Hj; cbn;
    intros Hi; try discriminate; split; congruence.
Qed.

Lemma frame_idle (st : State) (fr : Frame) :
  (isJumping st = false -> jumpHeight st = f_0_0) ->
  isJumping (fst (frame st fr)) = false ->
  jumpHeight (fst (frame st fr)) = f_0_0.
Proof.
  intros Hinv. unfold frame. cbn [fst].
  set (cf := d2f (glfwGetTime fr)).
  set (st1 := update_time cf st).
  set (st2 := process_input fr cf st1).
  assert (Hcl : forall s,
    isJumping (if close_requested fr
               then glfwSetWindowShouldClose true s else s) = isJumping s
    /\ jumpHeight (if close_requested fr
               then glfwSetWindowShouldClose true s else s) = jumpHeight s)
    by (intros s; now destruct (close_requested fr)).
  destruct (Hcl (handle_jump cf st2)) as [-> ->].
  intros Hidle. apply handle_jump_idle; [exact Hidle|].
  intros H2. apply process_input_idle in H2 as [H1 H2].
  unfold st2. rewrite H2. apply Hinv. exact H1.
Qed.

Lemma frame_uploaded (st : State) (fr : Frame) :
  snd (frame st fr) = build_transform fr (fst (frame st fr)).
Proof.
  unfold frame. cbn [fst snd].
  rewrite !build_transform_eq. now destruct (close_requested fr).
Qed.

(** A progress that is not a number fails the test [< 1.0f] and so ends
    the jump, like a progress of 1 or more. *)
Lemma handle_jump_nan (currentFrame : f32) (st : State) :
  isJumping st = true ->
  is_nan (jumpProgress currentFrame st) = true ->
  handle_jump currentFrame st
  = set_isJumping false (set_jumpHeight f_0_0 st).
Proof.
  intros Hj Hnan. unfold handle_jump. rewrite Hj.
  destruct (jumpProgress currentFrame st); try discriminate.
  reflexivity.
Qed.

Lemma render_loop_reachable (frames : list Frame) (st : State) :
  reachable st -> reachable (render_loop frames st).
Proof.
  revert st. induction frames as [|fr frames IH]; intros st Hst; cbn.
  - exact Hst.
  - destruct (windowShouldClose st) eqn:Hc; [exact Hst|].
    apply IH. now apply reach_frame.
Qed.

End RenderLoopFacts.

Lemma frame_jump (L : Libm) (st : State) (fr : Frame) :
  let currentFrame := d2f (glfwGetTime fr) in
  let st1 := process_input fr currentFrame (update_time currentFrame st) in
  jumpHeight (fst (@frame L st fr))
  = jumpHeight (@handle_jump L currentFrame st1) /\
  isJumping (fst (@frame L st fr))
  = isJumping (@handle_jump L currentFrame st1).
Proof.
  unfold frame. cbn [fst]. now destruct (close_requested fr).
Qed.

(** C1. In a frame whose jump flag is true when the jump step runs, let
    f = (currentFrame - jumpStartTime) / jumpDuration.  If f < 1 the jump
    height becomes sinf(f * M_PI) * 0.5f and the flag stays true; if
    f >= 1 the height becomes 0 and the flag false.  The height is 0 at
    f = 0 when sinf(0) = 0, it is 0.5 at f = 0.5 when sinf returns 1 at
    the float nearest to pi/2, and it never exceeds 0.5 where sinf
    returns a float that is at most 1.  The product with 0.5f keeps
    bounds: where sinf returns a float of magnitude at most b, the height
    has magnitude at most b/2.  As f approaches 1, the height approaches
    0 as fast as sinf does near pi: at the j-th float below 1
    (j = 1 .. 4096) sinf is called at one of the j floats just below the
    float nearest to pi, so the height there has magnitude at most b/2
    when sinf has magnitude at most b on these j floats. *)
Theorem jump_height_follows_half_sine (L : Libm) (st : State) (fr : Frame) :
  let currentFrame := d2f (glfwGetTime fr) in
  let st1 := process_input fr currentFrame (update_time currentFrame st) in
  let f := fdiv (fsub currentFrame (jumpStartTime st1)) (jumpDuration st1) in
  let st' := fst (@frame L st fr) in
  let height (p : f32) := fmul (sinf (d2f (dmul (f2d p) M_PI))) f_0_5 in
  isJumping st1 = true ->
  (flt f f_1_0 = true ->
   jumpHeight st' = height f /\ isJumping st' = true) /\
  (fle f_1_0 f = true ->
   jumpHeight st' = f_0_0 /\ isJumping st' = false) /\
  (sinf f_0_0 = f_0_0 -> height f_0_0 = f_0_0) /\
  (sinf (d2f (dmul (f2d f_0_5) M_PI)) = f_1_0 -> height f_0_5 = f_0_5) /\
  (forall p : f32,
     valid32 (sinf (d2f (dmul (f2d p) M_PI))) = true ->
     fle (sinf (d2f (dmul (f2d p) M_PI))) f_1_0 = true ->
     fle (height p) f_0_5 = true) /\
  (forall p b : f32,
     valid32 (sinf (d2f (dmul (f2d p) M_PI))) = true ->
     positive_normal b = true ->
     fle (fabs (sinf (d2f (dmul (f2d p) M_PI)))) b = true ->
     fle (fabs (height p)) (fmul b f_0_5) = true) /\
  (forall j : Z, 1 <= j <= 4096 ->
     flt (below_one j) f_1_0 = true /\
     exists M : positive,
       d2f (dmul (f2d (below_one j)) M_PI) = S754_finite false M (-22) /\
       13176795 - j <= Zpos M <= 13176794) /\
  (forall (j : Z) (b : f32), 1 <= j <= 4096 ->
     positive_normal b = true ->
     (forall M : positive, 13176795 - j <= Zpos M <= 13176794 ->
        valid32 (sinf (S754_finite false M (-22))) = true /\
        fle (fabs (sinf (S754_finite false M (-22)))) b = true) ->
     fle (fabs (height (below_one j))) (fmul b f_0_5) = true).
Proof.
  intros currentFrame st1 f st' height Hj.
  destruct (frame_jump L st fr) as [Hh Hi].
  fold currentFrame st1 st' in Hh, Hi.
  assert (Hstep : handle_jump currentFrame st1
                  = if flt f f_1_0
                    then set_jumpHeight (height f) st1
                    else set_isJumping false (set_jumpHeight f_0_0 st1)).
  { unfold handle_jump. now rewrite Hj. }
  rewrite Hstep in Hh, Hi.
  split; [|split; [|split; [|split; [|split; [|split; [|split]]]]]].
  - intros Hlt. rewrite Hlt in Hh, Hi. rewrite Hh, Hi. cbn. now split.
  - intros Hge. apply fle_not_flt in Hge. rewrite Hge in Hh, Hi.
    rewrite Hh, Hi. cbn. now split.
  - unfold height. change (d2f (dmul (f2d f_0_0) M_PI)) with f_0_0.
    now intros ->.
  - unfold height. now intros ->.
  - intros p Hv Hle. unfold height. now apply fmul_half_le.
  - intros p b Hv Hb Hle. unfold height. now apply fmul_half_abs_le.
  - apply sine_argument_below_one.
  - intros j b Hjr Hb Hsin.
    destruct (sine_argument_below_one j Hjr) as (_ & M & HM & Hw).
    destruct (Hsin M Hw) as [Hv Hle].
    unfold height. rewrite HM. now apply fmul_half_abs_le.
Qed.

Lemma jump_height_follows_half_sine_witness :
  jumpHeight
    (fst (@frame RefLibm.libm
            (fst (@frame RefLibm.libm initial_state
                         (keys_at 1 false false true)))
            (keys_at 33 false false false)))
  = f_0_5 /\
  fmul (@sinf RefLibm.libm f_0_0) f_0_5 = f_0_0 /\
  fle (fmul (@sinf RefLibm.libm (d2f (dmul (f2d f_0_5) M_PI))) f_0_5) f_0_5
  = true /\
  fle (fabs (fmul (@sinf RefLibm.libm
                          (d2f (dmul (f2d (below_one 1)) M_PI))) f_0_5))
      (fmul (S754_finite false 8388608 (-45)) f_0_5)
  = true.
Proof.
  assert (Hj : isJumping
                 (process_input (keys_at 33 false false false)
                    (d2f (tick 33))
                    (update_time (d2f (tick 33))
                       (fst (@frame RefLibm.libm initial_state
                                    (keys_at 1 false false true)))))
               = true) by (vm_compute; reflexivity).
  pose proof (jump_height_follows_half_sine RefLibm.libm
                (fst (@frame RefLibm.libm initial_state
                             (keys_at 1 false false true)))
                (keys_at 33 false false false) Hj)
    as (Hlt & _ & H0 & _ & Hmax & Hhalf & _ & _).
  split; [|split; [|split]].
  - rewrite (proj1 (Hlt ltac:(vm_compute; reflexivity))).
    vm_compute; reflexivity.
  - apply H0. reflexivity.
  - apply (Hmax f_0_5); vm_compute; reflexivity.
  - apply (Hhalf (below_one 1) (S754_finite false 8388608 (-45)));
      vm_compute; reflexivity.
Defined.

(** C2. In every frame the matrix uploaded to the [transform] uniform is
    the translation matrix of (translationX, translationY + jumpHeight),
    with the values these have after the frame's input and jump steps;
    changing the rotation angle, the rotation buffer or the libm that
    [createRotationMatrix] calls leaves it the same. *)
Theorem uploaded_transform_is_translation (L : Libm) (st : State)
        (fr : Frame) :
  let st' := fst (@frame L st fr) in
  snd (@frame L st fr)
  = createTranslationMatrix (translationX st')
      (fadd (translationY st') (jumpHeight st'))
      (float16 (transform_uninit fr))
  /\ forall (L' : Libm) (angle : f32) (g : nat -> f32),
       @build_transform L' (with_rotation_uninit g fr)
                        (with_rotationAngle angle st')
       = snd (@frame L st fr).
Proof.
  intros st'.
  assert (Hup : snd (@frame L st fr) = @build_transform L fr st')
    by apply frame_uploaded.
  split.
  - rewrite Hup, build_transform_eq.
    now rewrite createTranslationMatrix_float16.
  - intros L' angle g. rewrite Hup. now rewrite !build_transform_eq.
Qed.

(** C6. When Space is pressed while a jump is active, the input step
    leaves the jump start time and the jump-active flag as they were. *)
Theorem space_while_jumping_is_noop (fr : Frame) (currentFrame : f32)
        (st : State) :
  GLFW_KEY_SPACE fr = true -> isJumping st = true ->
  jumpStartTime (process_input fr currentFrame st) = jumpStartTime st /\
  isJumping (process_input fr currentFrame st) = isJumping st.
Proof.
  intros Hsp Hj. unfold process_input. rewrite Hsp.
  destruct (GLFW_KEY_ESCAPE fr), (GLFW_KEY_LEFT fr), (GLFW_KEY_RIGHT fr);
    cbn; rewrite Hj; cbn; now rewrite ?Hj.
Qed.

Lemma space_while_jumping_is_noop_witness :
  let st := fst (@frame RefLibm.libm initial_state (keys_at 1 false false true))
  in
  jumpStartTime (process_input (keys_at 9 false false true) (d2f (tick 9)) st)
  = d2f (tick 1) /\
  isJumping (process_input (keys_at 9 false false true) (d2f (tick 9)) st)
  = true.
Proof.
  exact (space_while_jumping_is_noop (keys_at 9 false false true)
           (d2f (tick 9))
           (fst (@frame RefLibm.libm initial_state
                        (keys_at 1 false false true)))
           eq_refl eq_refl).
Defined.

(** C7. In every state the loop test can see, an inactive jump flag
    comes with jump height 0; in particular the frame that ends a jump
    leaves the height at 0. *)
Theorem idle_jump_height_is_zero `{Libm} (st : State) :
  reachable st ->
  (isJumping st = false -> jumpHeight st = f_0_0) /\
  (forall fr, isJumping (fst (frame st fr)) = false ->
              jumpHeight (fst (frame st fr)) = f_0_0).
Proof.
  intros Hr.
  assert (Hinv : isJumping st = false -> jumpHeight st = f_0_0).
  { induction Hr as [|st fr Hr IH Hopen]; [reflexivity|].
    now apply frame_idle. }
  split; [exact Hinv|].
  intros fr. now apply frame_idle.
Qed.

Lemma idle_jump_height_is_zero_witness :
  isJumping (@render_loop RefLibm.libm
               [keys_at 1 false false true; keys_at 33 false false false;
                keys_at 65 false false false] initial_state) = false /\
  jumpHeight (@render_loop RefLibm.libm
                [keys_at 1 false false true; keys_at 33 false false false;
                 keys_at 65 false false false] initial_state) = f_0_0.
Proof.
  pose proof (@idle_jump_height_is_zero RefLibm.libm _
                (render_loop_reachable
                   [keys_at 1 false false true; keys_at 33 false false false;
                    keys_at 65 false false false] _ reach_init))
    as [Hidle _].
  split; [reflexivity | apply Hidle; reflexivity].
Defined.

(** C10. [translationY] starts at -0.75f, no frame changes it, so it is
    -0.75f in every state the loop test can see; the jump height only
    enters the uploaded matrix, at index 7. *)
Theorem translationY_is_constant `{Libm} :
  translationY initial_state = fneg f_0_75 /\
  (forall st fr, translationY (fst (frame st fr)) = translationY st) /\
  (forall st, reachable st -> translationY st = fneg f_0_75) /\
  (forall st fr,
     snd (frame st fr) !! 7%nat
     = Some (fadd (translationY st) (jumpHeight (fst (frame st fr))))).
Proof.
  split; [reflexivity|]. split; [apply frame_translationY|]. split.
  - intros st Hr. induction Hr as [|st fr Hr IH Hopen]; [reflexivity|].
    now rewrite frame_translationY.
  - intros st fr.
    rewrite frame_uploaded, build_transform_eq, frame_translationY.
    reflexivity.
Qed.

Lemma translationY_is_constant_witness :
  translationY (@render_loop RefLibm.libm
                  [keys_at 1 true false true; keys_at 33 false true false]
                  initial_state)
  = fneg f_0_75.
Proof.
  apply (proj1 (proj2 (proj2 (@translationY_is_constant RefLibm.libm)))).
  apply render_loop_reachable, reach_init.
Defined.

(** C5 (as amended). The horizontal offset starts at -1.0f.  A frame with
    only Left held replaces it by the float difference with 0.01f, a
    frame with only Right held by the float sum with 0.01f, and a frame
    with both held by the sum of the difference, each operation rounded
    to binary32; a frame with neither leaves it.  At the starting offset
    the two rounded steps give back -1.0f. *)
Theorem horizontal_offset_steps `{Libm} :
  translationX initial_state = fneg f_1_0 /\
  (forall st fr,
     let x := translationX st in
     let x' := translationX (fst (frame st fr)) in
     match GLFW_KEY_LEFT fr, GLFW_KEY_RIGHT fr with
     | true, false => x' = fsub x f_0_01
     | false, true => x' = fadd x f_0_01
     | true, true => x' = fadd (fsub x f_0_01) f_0_01
     | false, false => x' = x
     end) /\
  (forall fr, GLFW_KEY_LEFT fr = true -> GLFW_KEY_RIGHT fr = true ->
     translationX (fst (frame initial_state fr))
     = translationX initial_state).
Proof.
  split; [reflexivity|]. split.
  - intros st fr x x'. unfold x'. rewrite frame_translationX.
    now destruct (GLFW_KEY_LEFT fr), (GLFW_KEY_RIGHT fr).
  - intros fr Hl Hr. rewrite frame_translationX, Hl, Hr. reflexivity.
Qed.

Lemma horizontal_offset_steps_witness :
  translationX (fst (@frame RefLibm.libm initial_state
                            (keys_at 1 true true false)))
  = fneg f_1_0.
Proof.
  exact (proj2 (proj2 (@horizontal_offset_steps RefLibm.libm))
               (keys_at 1 true true false) eq_refl eq_refl).
Defined.

(** C5 as stated fails: after Left has been held for 300 frames the
    offset is -16777204 * 2^-22; a frame with both keys held then leaves
    -16777205 * 2^-22, one unit in the last place further left. *)
Lemma left_and_right_do_not_cancel :
  @reachable RefLibm.libm
     (@render_loop RefLibm.libm (hold_left 300) initial_state) /\
  translationX (@render_loop RefLibm.libm (hold_left 300) initial_state)
  = S754_finite true 16777204 (-22) /\
  translationX
    (fst (@frame RefLibm.libm
            (@render_loop RefLibm.libm (hold_left 300) initial_state)
            (keys_at 301 true true false)))
  = S754_finite true 16777205 (-22) /\
  feq (translationX
         (fst (@frame RefLibm.libm
                 (@render_loop RefLibm.libm (hold_left 300) initial_state)
                 (keys_at 301 true true false))))
      (translationX
         (@render_loop RefLibm.libm (hold_left 300) initial_state))
  = false.
Proof.
  split; [apply render_loop_reachable, reach_init|].
  repeat split; vm_compute; reflexivity.
Qed.

(** ** Shader manager *)

Lemma length_substring_le (n : nat) (s : string) :
  (String.length (String.substring 0 n s) <= n)%nat.
Proof.
  revert s. induction n as [|n IH]; intros [|c s]; cbn; try lia.
  specialize (IH s). lia.
Qed.

(** C8. [compileShader] always returns, and what it returns is the
    handle [glCreateShader] gave it, whatever the compiler says.  When
    the compilation fails it appends to the error stream the line
    ERROR::SHADER::COMPILATION_FAILED, then the information log cut to
    the 511 characters that fit the 512-byte buffer, then a line end;
    when it succeeds it writes nothing. *)
Theorem compileShader_reports_and_returns (C : Compiler) (type : GLenum)
        (source : string) (w : world) :
  let shader := N.succ (next_name (gl w)) in
  let infoLog := String.substring 0 511 (snd (glsl_compile type source)) in
  (exists w',
     compileShader type source w = Returns shader w' /\
     cerr w' = if fst (glsl_compile type source) then cerr w
               else cerr w +:+ ("ERROR::SHADER::COMPILATION_FAILED" +:+ endl
                                +:+ infoLog +:+ endl)) /\
  (String.length infoLog < 512)%nat /\
  (forall C' : Compiler, exists w',
     @compileShader C' type source w = Returns shader w').
Proof.
  intros shader infoLog.
  assert (Hrun : forall C0 : Compiler, exists w',
    @compileShader C0 type source w = Returns shader w' /\
    cerr w' = if fst (@glsl_compile C0 type source) then cerr w
              else cerr w
                +:+ ("ERROR::SHADER::COMPILATION_FAILED" +:+ endl
                     +:+ String.substring 0 511
                           (snd (@glsl_compile C0 type source)) +:+ endl)).
  { intros C0.
    unfold compileShader, mbind, M_bind, mret, M_ret, GL.bind, GL.ret,
      glCreateShader, glShaderSource, glCompileShader, glGetShaderiv,
      glGetShaderInfoLog, with_driver, update_shader, cerr_put.
    cbn [gl cerr shaders next_name].
    rewrite !lookup_alter_eq, lookup_insert_eq. cbn.
    destruct (@glsl_compile C0 type source) as [[|] log] eqn:Hc; cbn.
    - eexists; split; reflexivity.
    - rewrite !lookup_alter_eq, lookup_insert_eq. cbn. rewrite Hc. cbn.
      eexists; split; reflexivity. }
  split; [apply Hrun|]. split.
  - pose proof (length_substring_le 511
                  (snd (glsl_compile type source))). unfold infoLog. lia.
  - intros C'. destruct (Hrun C') as (w' & Hw & _). now exists w'.
Qed.

(** * Further properties *)

(** ** Matrix builder *)

(** X1. [createScalingMatrix sx sy] leaves [sx] at index 0, [sy] at
    index 5, 1 at indices 10 and 15 and 0 at every other index of the
    caller's 16-element buffer. *)
Theorem createScalingMatrix_entries (scaleX scaleY : f32)
        (matrix : list f32) :
  length matrix = 16%nat ->
  length (createScalingMatrix scaleX scaleY matrix) = 16%nat /\
  forall i, (i < 16)%nat ->
    createScalingMatrix scaleX scaleY matrix !! i
    = Some (match i with
            | 0 => scaleX
            | 5 => scaleY
            | 10 | 15 => f_1_0
            | _ => f_0_0
            end%nat).
Proof.
  intros Hlen. split.
  - unfold createScalingMatrix, store.
    now rewrite !length_insert, length_identityMatrix.
  - intros i Hi. sixteen matrix. each_index i.
Qed.

Lemma createScalingMatrix_entries_witness :
  createScalingMatrix f_0_5 f_0_75 (replicate 16 S754_nan) !! 5%nat
  = Some f_0_75.
Proof.
  apply (proj2 (createScalingMatrix_entries f_0_5 f_0_75
                  (replicate 16 S754_nan) eq_refl) 5%nat); lia.
Defined.

(** X2. Every builder overwrites all 16 entries: what it leaves does not
    depend on what the buffer held.  So a builder run on the output of
    another keeps nothing of it; a translation built over a rotation is
    the plain translation. *)
Theorem builders_overwrite_buffer `{Libm} (m1 m2 : list f32) :
  length m1 = 16%nat -> length m2 = 16%nat ->
  identityMatrix m1 = identityMatrix m2 /\
  (forall angle, createRotationMatrix angle m1
                 = createRotationMatrix angle m2) /\
  (forall x y, createTranslationMatrix x y m1
               = createTranslationMatrix x y m2) /\
  (forall sx sy, createScalingMatrix sx sy m1
                 = createScalingMatrix sx sy m2) /\
  (forall angle x y,
     createTranslationMatrix x y (createRotationMatrix angle m1)
     = createTranslationMatrix x y m2).
Proof.
  intros H1 H2.
  assert (Hid : identityMatrix m1 = identityMatrix m2)
    by (sixteen m1; sixteen m2; reflexivity).
  assert (Hid' : forall m, length m = 16%nat ->
                           identityMatrix m = identityMatrix m2)
    by (intros m Hm; sixteen m; sixteen m2; reflexivity).
  split; [exact Hid|].
  unfold createRotationMatrix, createTranslationMatrix, createScalingMatrix.
  rewrite Hid. repeat split; try reflexivity.
  intros angle x y. rewrite Hid'; [reflexivity|].
  unfold store. now rewrite !length_insert, length_identityMatrix.
Qed.

Lemma builders_overwrite_buffer_witness :
  createTranslationMatrix f_0_5 f_0_75
    (@createRotationMatrix RefLibm.libm f_180_0 (replicate 16 S754_nan))
  = createTranslationMatrix f_0_5 f_0_75 (replicate 16 f_1_0).
Proof.
  exact (proj2 (proj2 (proj2 (proj2
           (@builders_overwrite_buffer RefLibm.libm
              (replicate 16 S754_nan) (replicate 16 f_1_0)
              eq_refl eq_refl)))) f_180_0 f_0_5 f_0_75).
Defined.

(** ** Render loop *)

(** One iteration, field by field. *)
Lemma frame_fields `{Libm} (st : State) (fr : Frame) :
  fst (frame st fr)
  = let currentFrame := d2f (glfwGetTime fr) in
    let starts := GLFW_KEY_SPACE fr && negb (isJumping st) in
    let jumping := isJumping st || GLFW_KEY_SPACE fr in
    let start := if starts then currentFrame else jumpStartTime st in
    let p := fdiv (fsub currentFrame start) (jumpDuration st) in
    {| translationX := offset_after (GLFW_KEY_LEFT fr) (GLFW_KEY_RIGHT fr)
                                    (translationX st);
       translationY := translationY st;
       rotationAngle := rotationAngle st;
       isJumping := jumping && flt p f_1_0;
       jumpHeight := if jumping
                     then if flt p f_1_0 then jump_arc p else f_0_0
                     else jumpHeight st;
       jumpSpeed := jumpSpeed st;
       jumpStartTime := start;
       jumpDuration := jumpDuration st;
       deltaTime := fsub currentFrame (lastFrame st);
       lastFrame := currentFrame;
       windowShouldClose := windowShouldClose st || closes fr |}.
Proof.
  destruct fr as [t esc l r sp cl g1 g2 g3].
  destruct st as [tx ty ra j h js jt jd dt lf wc].
  destruct esc, l, r, sp, cl, j, wc;
  cbv [frame handle_jump process_input update_time jumpProgress closes
       offset_after fst
       translationX translationY rotationAngle isJumping jumpHeight
       jumpSpeed jumpStartTime jumpDuration deltaTime lastFrame
       windowShouldClose set_translationX set_isJumping set_jumpHeight
       set_jumpStartTime set_deltaTime set_lastFrame
       glfwSetWindowShouldClose GLFW_KEY_ESCAPE GLFW_KEY_LEFT GLFW_KEY_RIGHT
       GLFW_KEY_SPACE close_requested glfwGetTime andb orb negb];
    try (destruct (flt (fdiv (fsub (d2f t) jt) jd) f_1_0));
    try (destruct (flt (fdiv (fsub (d2f t) (d2f t)) jd) f_1_0));
    reflexivity.
Qed.

Ltac frame_norm :=
  rewrite ?frame_uploaded, ?build_transform_eq, ?frame_fields;
  unfold with_exit_keys, with_arrow_keys, with_clock, closes,
    set_translationX, set_deltaTime, set_lastFrame,
    glfwSetWindowShouldClose;
  cbv zeta;
  cbn [translationX translationY rotationAngle isJumping jumpHeight
       jumpSpeed jumpStartTime jumpDuration deltaTime lastFrame
       windowShouldClose GLFW_KEY_ESCAPE GLFW_KEY_LEFT GLFW_KEY_RIGHT
       GLFW_KEY_SPACE close_requested glfwGetTime transform_uninit
       rotation_uninit finalTransform_uninit].

(** X3. After a frame the close flag is set exactly when it was set
    before, Escape was down or the window system asked to close.  Escape
    and the close request touch nothing else: the frame in which they
    arrive is processed and drawn like any other. *)
Theorem escape_only_sets_close_flag `{Libm} (st : State) (fr : Frame) :
  windowShouldClose (fst (frame st fr))
  = windowShouldClose st || GLFW_KEY_ESCAPE fr || close_requested fr /\
  forall escape close : bool,
    snd (frame st (with_exit_keys escape close fr)) = snd (frame st fr) /\
    glfwSetWindowShouldClose false
      (fst (frame st (with_exit_keys escape close fr)))
    = glfwSetWindowShouldClose false (fst (frame st fr)).
Proof.
  split.
  - frame_norm. now rewrite orb_assoc.
  - intros escape close. split; frame_norm; reflexivity.
Qed.

(** X4. The loop is sequential: running it on two batches of frames is
    running it on the first and then, from the state reached, on the
    second.  It stops with the first frame that has Escape down or a
    close request: no later frame has any effect, and the final state has
    the close flag set. *)
Theorem render_loop_stops_at_close `{Libm} (pre post : list Frame)
        (fr : Frame) (st : State) :
  (forall a b s, render_loop (a ++ b) s = render_loop b (render_loop a s)) /\
  (closes fr = true ->
   render_loop (pre ++ fr :: post) st = render_loop (pre ++ [fr]) st /\
   windowShouldClose (render_loop (pre ++ fr :: post) st) = true).
Proof.
  assert (Hclosed : forall fs s, windowShouldClose s = true ->
                                 render_loop fs s = s)
    by (intros [|f fs] s Hs; cbn; [reflexivity | now rewrite Hs]).
  assert (Happ : forall a b s,
             render_loop (a ++ b) s = render_loop b (render_loop a s)).
  { induction a as [|f a IH]; intros b s; cbn; [reflexivity|].
    destruct (windowShouldClose s) eqn:Hs; [|apply IH].
    now rewrite Hclosed. }
  split; [exact Happ|].
  intros Hcl.
  assert (Hflag : windowShouldClose (render_loop (pre ++ [fr]) st) = true).
  { rewrite Happ. cbn [render_loop].
    destruct (windowShouldClose (render_loop pre st)) eqn:Hs; [exact Hs|].
    rewrite frame_fields. cbv zeta. cbn [windowShouldClose].
    rewrite Hcl. apply orb_true_r. }
  assert (Heq : render_loop (pre ++ fr :: post) st
                = render_loop (pre ++ [fr]) st).
  { change (fr :: post) with ([fr] ++ post).
    rewrite app_assoc, Happ. now apply Hclosed. }
  split; [exact Heq|]. now rewrite Heq.
Qed.

Lemma render_loop_stops_at_close_witness :
  @render_loop RefLibm.libm
     ([keys_at 1 true false false]
        ++ with_exit_keys true false (keys_at 2 true false false)
        :: [keys_at 3 true false false; keys_at 4 true false false])
     initial_state
  = @render_loop RefLibm.libm
      ([keys_at 1 true false false]
         ++ [with_exit_keys true false (keys_at 2 true false false)])
      initial_state.
Proof.
  exact (proj1 (proj2 (@render_loop_stops_at_close RefLibm.libm
           [keys_at 1 true false false]
           [keys_at 3 true false false; keys_at 4 true false false]
           (with_exit_keys true false (keys_at 2 true false false))
           initial_state) eq_refl)).
Defined.

(** X5. No frame assigns the rotation angle, the jump speed or the jump
    duration: in every state the loop test can see they are 0, 0.1f and
    1.0f. *)
Theorem loop_constants `{Libm} :
  (forall st fr,
     rotationAngle (fst (frame st fr)) = rotationAngle st /\
     jumpSpeed (fst (frame st fr)) = jumpSpeed st /\
     jumpDuration (fst (frame st fr)) = jumpDuration st) /\
  (forall st, reachable st ->
     rotationAngle st = f_0_0 /\ jumpSpeed st = f_0_1 /\
     jumpDuration st = f_1_0).
Proof.
  assert (Hstep : forall st fr,
     rotationAngle (fst (frame st fr)) = rotationAngle st /\
     jumpSpeed (fst (frame st fr)) = jumpSpeed st /\
     jumpDuration (fst (frame st fr)) = jumpDuration st)
    by (intros st fr; frame_norm; repeat split).
  split; [exact Hstep|].
  intros st Hr. induction Hr as [|st fr Hr IH Hopen].
  - repeat split.
  - destruct (Hstep st fr) as (-> & -> & ->). exact IH.
Qed.

Lemma loop_constants_witness :
  jumpDuration (@render_loop RefLibm.libm
                  [keys_at 1 true false true; keys_at 33 false true false]
                  initial_state)
  = f_1_0.
Proof.
  apply (proj2 (@loop_constants RefLibm.libm)).
  apply render_loop_reachable, reach_init.
Defined.

(** X6. Each frame stores the clock in [lastFrame] and the difference to
    the previous clock in [deltaTime], and reads neither for anything
    else: with other values in the two fields the frame uploads the same
    matrix and leaves the same state in every other field. *)
Theorem deltaTime_is_unused `{Libm} (st : State) (fr : Frame) :
  lastFrame (fst (frame st fr)) = d2f (glfwGetTime fr) /\
  deltaTime (fst (frame st fr))
  = fsub (d2f (glfwGetTime fr)) (lastFrame st) /\
  forall dt last : f32,
    snd (frame (with_clock dt last st) fr) = snd (frame st fr) /\
    with_clock f_0_0 f_0_0 (fst (frame (with_clock dt last st) fr))
    = with_clock f_0_0 f_0_0 (fst (frame st fr)).
Proof.
  split; [|split].
  - frame_norm. reflexivity.
  - frame_norm. reflexivity.
  - intros dt last. split; frame_norm; reflexivity.
Qed.

(** X7. The two axes do not interact: whatever the arrow keys and the
    horizontal offset, a frame leaves the same jump flag, jump height and
    jump start time, and the same vertical entry in the uploaded
    matrix. *)
Theorem arrows_do_not_affect_jump `{Libm} (st : State) (fr : Frame)
        (left right : bool) (x : f32) :
  let st' := fst (frame (set_translationX x st)
                        (with_arrow_keys left right fr)) in
  isJumping st' = isJumping (fst (frame st fr)) /\
  jumpHeight st' = jumpHeight (fst (frame st fr)) /\
  jumpStartTime st' = jumpStartTime (fst (frame st fr)) /\
  snd (frame (set_translationX x st) (with_arrow_keys left right fr))
      !! 7%nat
  = snd (frame st fr) !! 7%nat.
Proof.
  intros st'. unfold st'. repeat split; frame_norm; reflexivity.
Qed.

(** X8. Over a whole frame, whatever the keys and the clock: while a
    jump is active its start time stays as it is, and without Space an
    idle triangle stays idle with its height and start time untouched. *)
Theorem jump_state_between_jumps `{Libm} (st : State) (fr : Frame) :
  (isJumping st = true ->
   jumpStartTime (fst (frame st fr)) = jumpStartTime st) /\
  (isJumping st = false -> GLFW_KEY_SPACE fr = false ->
   isJumping (fst (frame st fr)) = false /\
   jumpHeight (fst (frame st fr)) = jumpHeight st /\
   jumpStartTime (fst (frame st fr)) = jumpStartTime st).
Proof.
  split.
  - intros Hj. frame_norm. now rewrite Hj, andb_false_r.
  - intros Hj Hsp. frame_norm. rewrite Hj, Hsp. now repeat split.
Qed.

Lemma jump_state_between_jumps_witness :
  jumpStartTime
    (fst (@frame RefLibm.libm
            (fst (@frame RefLibm.libm initial_state
                         (keys_at 1 false false true)))
            (keys_at 9 true false true)))
  = d2f (tick 1) /\
  isJumping (fst (@frame RefLibm.libm initial_state
                         (keys_at 1 true false false))) = false.
Proof.
  split.
  - exact (proj1 (@jump_state_between_jumps RefLibm.libm
                    (fst (@frame RefLibm.libm initial_state
                                 (keys_at 1 false false true)))
                    (keys_at 9 true false true)) eq_refl).
  - exact (proj1 (proj2 (@jump_state_between_jumps RefLibm.libm
                           initial_state (keys_at 1 true false false))
                        eq_refl eq_refl)).
Defined.

Lemma fsub_diag (x : f32) :
  fsub x x = if is_finite x then f_0_0 else S754_nan.
Proof.
  destruct x as [[]|[]| |s m e]; try reflexivity.
  unfold fsub, SFsub. now rewrite Z.sub_diag.
Qed.

(** X9. The frame in which a jump starts (Space down, no jump active,
    jump duration 1.0f as in every reachable state): the start time
    becomes the frame's clock; with a finite clock the progress is 0, so
    the jump is active after the frame with height sinf(0) * 0.5f; with
    an infinite or NaN clock the progress is NaN and the jump is over
    within the same frame, with height 0. *)
Theorem first_frame_of_a_jump `{Libm} (st : State) (fr : Frame) :
  isJumping st = false -> GLFW_KEY_SPACE fr = true ->
  jumpDuration st = f_1_0 ->
  let currentFrame := d2f (glfwGetTime fr) in
  let st' := fst (frame st fr) in
  jumpStartTime st' = currentFrame /\
  (is_finite currentFrame = true ->
   isJumping st' = true /\ jumpHeight st' = fmul (sinf f_0_0) f_0_5) /\
  (is_finite currentFrame = false ->
   isJumping st' = false /\ jumpHeight st' = f_0_0).
Proof.
  intros Hj Hsp Hd currentFrame st'. unfold st'. frame_norm.
  rewrite Hj, Hsp, Hd. cbn [andb orb negb]. fold currentFrame.
  rewrite fsub_diag. split; [reflexivity|].
  split; intros ->; split; reflexivity.
Qed.

Lemma first_frame_of_a_jump_witness :
  isJumping (fst (@frame RefLibm.libm initial_state
                         (keys_at 5 false false true))) = true /\
  jumpHeight (fst (@frame RefLibm.libm initial_state
                          (keys_at 5 false false true)))
  = fmul (@sinf RefLibm.libm f_0_0) f_0_5.
Proof.
  exact (proj1 (proj2 (@first_frame_of_a_jump RefLibm.libm initial_state
                         (keys_at 5 false false true)
                         eq_refl eq_refl eq_refl))
               eq_refl).
Defined.

Lemma guarded_cases (y : f32) :
  guarded y = S754_nan \/
  (valid32 (guarded y) = true /\ fle (guarded y) f_1_0 = true).
Proof.
  unfold guarded.
  destruct (valid32 y && fle y f_1_0) eqn:Hg; [right|now left].
  now apply andb_prop in Hg.
Qed.

(** X10. On a libm whose [sinf] only returns NaN or binary32 values that
    are at most 1, the jump height is NaN or at most 0.5 in every state
    the loop test can see. *)
Theorem jump_height_at_most_half `{Libm} (st : State) :
  (forall x, sinf x = S754_nan \/
             (valid32 (sinf x) = true /\ fle (sinf x) f_1_0 = true)) ->
  reachable st ->
  jumpHeight st = S754_nan \/ fle (jumpHeight st) f_0_5 = true.
Proof.
  intros Hsin Hr. induction Hr as [|st fr Hr IH Hopen].
  - now right.
  - frame_norm.
    destruct (isJumping st || GLFW_KEY_SPACE fr); [|exact IH].
    match goal with |- context [flt ?p f_1_0] =>
      destruct (flt p f_1_0); [set (progress := p)|now right] end.
    unfold jump_arc.
    destruct (Hsin (d2f (dmul (f2d progress) M_PI))) as [->|[Hv Hle]].
    + now left.
    + right. now apply fmul_half_le.
Qed.

Lemma jump_height_at_most_half_witness :
  jumpHeight (@render_loop guarded_libm
                [keys_at 1 false false true; keys_at 17 false false false]
                initial_state) = S754_nan \/
  fle (jumpHeight (@render_loop guarded_libm
                     [keys_at 1 false false true;
                      keys_at 17 false false false]
                     initial_state)) f_0_5 = true.
Proof.
  apply (@jump_height_at_most_half guarded_libm).
  - intros x. apply guarded_cases.
  - apply render_loop_reachable, reach_init.
Defined.

(** ** Shader manager *)

Lemma compileShader_run `{Compiler} (type : GLenum) (source : string)
      (w : world) :
  compileShader type source w
  = Returns (N.succ (next_name (gl w)))
      {| gl := {| shaders := <[N.succ (next_name (gl w))
                               := compiled type source]> (shaders (gl w));
                  next_name := N.succ (next_name (gl w)) |};
         cerr := with_diagnostic (fst (glsl_compile type source))
                   "ERROR::SHADER::COMPILATION_FAILED"
                   (snd (glsl_compile type source)) (cerr w) |}.
Proof.
  unfold compileShader, mbind, M_bind, mret, M_ret, GL.bind, GL.ret,
    glCreateShader, glShaderSource, glCompileShader, glGetShaderiv,
    glGetShaderInfoLog, with_driver, update_shader, cerr_put, compiled,
    with_diagnostic.
  cbn [gl cerr shaders next_name].
  rewrite !alter_insert_eq, !lookup_insert_eq. cbn.
  destruct (glsl_compile type source) as [[|] log] eqn:Hc; cbn.
  - reflexivity.
  - rewrite !lookup_insert_eq. cbn. reflexivity.
Qed.

Lemma createShaderProgram_run (C : Compiler) (K : Linker) (m : machine) :
  let n := next_name (gl (io m)) in
  let v := compiled GL_VERTEX_SHADER vertexShaderSource in
  let f := compiled GL_FRAGMENT_SHADER fragmentShaderSource in
  let k := glsl_link [v; f] in
  createShaderProgram m
  = Done (N.succ (N.succ (N.succ n)))
      {| io :=
           {| gl := {| shaders := <[N.succ (N.succ n) := f]>
                                    (<[N.succ n := v]> (shaders (gl (io m))));
                       next_name := N.succ (N.succ (N.succ n)) |};
              cerr :=
                with_diagnostic (fst k)
                  "ERROR::SHADER::PROGRAM::LINKING_FAILED" (snd k)
                  (with_diagnostic (sh_status f)
                     "ERROR::SHADER::COMPILATION_FAILED" (sh_log f)
                     (with_diagnostic (sh_status v)
                        "ERROR::SHADER::COMPILATION_FAILED" (sh_log v)
                        (cerr (io m)))) |};
         programs :=
           <[N.succ (N.succ (N.succ n))
             := {| pr_attached := [N.succ n; N.succ (N.succ n)];
                   pr_status := fst k; pr_log := snd k |}]> (programs m);
         calls := calls m ++ [GlDeleteShader (N.succ n);
                              GlDeleteShader (N.succ (N.succ n))] |}.
Proof.
  intros n v f k.
  unfold createShaderProgram, mbind, Prog_bind, lift.
  rewrite compileShader_run. fold n v. unfold with_io.
  cbn [io programs calls]. rewrite compileShader_run.
  cbn [gl next_name shaders cerr]. fold f.
  unfold glCreateProgram, glAttachShader, glLinkProgram, glGetProgramiv,
    glGetProgramInfoLog, with_programs, record_call, mret, Prog_ret.
  cbn [io programs calls gl next_name shaders cerr].
  rewrite !alter_insert_eq, !lookup_insert_eq.
  cbn [pr_attached pr_status pr_log app omap list_omap].
  rewrite lookup_insert_eq, lookup_insert_ne, lookup_insert_eq by lia.
  fold k.
  destruct k as [[|] log] eqn:Hk; cbn -[vertexShaderSource
    fragmentShaderSource with_diagnostic].
  - unfold with_diagnostic at 1. rewrite <- app_assoc. reflexivity.
  - unfold cerr_put, with_io. cbn [io gl cerr programs calls].
    rewrite lookup_insert_eq. cbn [pr_log].
    unfold with_diagnostic at 1. rewrite <- app_assoc. reflexivity.
Qed.

(** ** Start-up, loop and shutdown *)

Section MainFacts.
Context `{Libm}.

Lemma frame_close_flag (st : State) (fr : Frame) :
  windowShouldClose (fst (frame st fr)) = windowShouldClose st || closes fr.
Proof. now rewrite frame_fields. Qed.


Lemma render_loop_closed_iff (fs : list Frame) (st : State) :
  windowShouldClose (render_loop fs st)
  = windowShouldClose st || existsb closes fs.
Proof.
  revert st. induction fs as [|fr fs IH]; intros st; cbn [render_loop
    existsb]; [now rewrite orb_false_r|].
  destruct (windowShouldClose st) eqn:Hst; [exact Hst|].
  now rewrite IH, frame_close_flag, Hst.
Qed.

Lemma main_loop_run (pf : Platform) (window : N) (VAO p : GLuint)
      (fs : list Frame) (st : State) (m : machine) :
  main_loop pf window VAO p fs st m
  = Done (windowShouldClose (render_loop fs st), render_loop fs st)
      {| io := io m; programs := programs m;
         calls := calls m
                  ++ concat (frame_calls
                               (uniform_location pf p (programs m !! p)
                                                 "transform")
                               window VAO p <$> uploads fs st) |}.
Proof.
  revert st m. induction fs as [|fr fs IH]; intros st m;
    cbn [main_loop render_loop uploads].
  - destruct (windowShouldClose st) eqn:Hst; unfold mret, Prog_ret;
      cbn [fmap list_fmap concat]; rewrite ?Hst, app_nil_r; now destruct m.
  - destruct (windowShouldClose st) eqn:Hst.
    + unfold mret, Prog_ret. cbn [fmap list_fmap concat].
      rewrite Hst, app_nil_r. now destruct m.
    + unfold draw_frame, glGetUniformLocation, record_call, mbind,
        Prog_bind.
      cbn [io programs calls]. rewrite IH. cbn [io programs calls].
      rewrite fmap_cons. cbn [concat frame_calls].
      rewrite <- !app_assoc. reflexivity.
Qed.

End MainFacts.

Section MainRun.
Context `{Libm} `{Compiler} `{Linker}.

Lemma run_record_call {A} (c : call) (k : unit -> Prog A) (m : machine) :
  mbind k (record_call c) m
  = k tt {| io := io m; programs := programs m; calls := calls m ++ [c] |}.
Proof. reflexivity. Qed.

Lemma run_bind {A B} (c : Prog A) (k : A -> Prog B) (m : machine) :
  mbind k c m
  = match c m with
    | Done a m' => k a m'
    | Halted status m' => Halted status m'
    end.
Proof. reflexivity. Qed.

(** A run of [main] whose three initialisations succeed. *)
Lemma main_run (pf : Platform) (window : N) (m : machine) :
  glfwInit pf = true -> glfwCreateWindow pf = Some window ->
  glewInit_is_GLEW_OK pf = true ->
  let n := next_name (gl (io m)) in
  let p := N.succ (N.succ (N.succ n)) in
  let VAO := glGenVertexArrays pf in
  let VBO := glGenBuffers pf in
  let closed := existsb closes (frames pf) in
  let v := compiled GL_VERTEX_SHADER vertexShaderSource in
  let f := compiled GL_FRAGMENT_SHADER fragmentShaderSource in
  let k := glsl_link [v; f] in
  let linked := {| pr_attached := [N.succ n; N.succ (N.succ n)];
                   pr_status := fst k; pr_log := snd k |} in
  exists m',
    main pf m = Done (if closed then Some 0 else None) m' /\
    calls m'
    = calls m ++ init_calls window ++ setup_calls VAO VBO
      ++ [GlDeleteShader (N.succ n); GlDeleteShader (N.succ (N.succ n));
          GlUseProgram p]
      ++ concat (frame_calls (uniform_location pf p (Some linked)
                                               "transform")
                             window VAO p
                 <$> uploads (frames pf) initial_state)
      ++ (if closed then cleanup_calls window VAO VBO p else []) /\
    cerr (io m')
    = with_diagnostic (fst k)
        "ERROR::SHADER::PROGRAM::LINKING_FAILED" (snd k)
        (with_diagnostic (sh_status f)
           "ERROR::SHADER::COMPILATION_FAILED" (sh_log f)
           (with_diagnostic (sh_status v)
              "ERROR::SHADER::COMPILATION_FAILED" (sh_log v)
              (cerr (io m)))).
Proof.
  intros Hinit Hwin Hglew n p VAO VBO closed v f k linked.
  unfold main. rewrite Hinit, Hwin, Hglew. cbn [negb].
  do 13 (rewrite run_record_call; cbv beta; cbn [io programs calls]).
  rewrite run_bind, createShaderProgram_run. cbv beta zeta.
  cbn [io programs calls gl next_name].
  rewrite run_record_call. cbv beta. cbn [io programs calls].
  rewrite run_bind. unfold fmap, Prog_fmap. rewrite main_loop_run.
  cbn [fst io programs calls]. rewrite render_loop_closed_iff.
  cbn [windowShouldClose initial_state orb]. fold closed.
  cbn [io programs calls gl next_name]. rewrite lookup_insert_eq.
  fold n p VAO VBO v f k. fold linked.
  destruct closed.
  - do 5 (rewrite run_record_call; cbv beta; cbn [io programs calls]).
    eexists. split; [reflexivity|]. cbn [io programs calls cerr].
    split; [|reflexivity].
    unfold init_calls, setup_calls, cleanup_calls.
    rewrite <- !app_assoc. reflexivity.
  - eexists. split; [reflexivity|]. cbn [io programs calls cerr].
    split; [|reflexivity].
    unfold init_calls, setup_calls.
    rewrite <- !app_assoc, app_nil_r. reflexivity.
Qed.

Lemma run_cerr_line {A} (s : string) (k : unit -> Prog A) (m : machine) :
  mbind k (cerr_line s) m
  = k tt {| io := {| gl := gl (io m); cerr := cerr (io m) +:+ (s +:+ endl) |};
            programs := programs m; calls := calls m |}.
Proof. reflexivity. Qed.

(** The three runs of [main] that end in an initialisation failure. *)
Lemma main_run_no_glfw (pf : Platform) (m : machine) :
  glfwInit pf = false ->
  main pf m
  = Done (Some (-1))
      {| io := {| gl := gl (io m);
                  cerr := cerr (io m)
                          +:+ ("Failed to initialize GLFW" +:+ endl) |};
         programs := programs m;
         calls := calls m ++ [GlfwInit] |}.
Proof.
  intros Hinit. unfold main. rewrite Hinit. cbn [negb].
  rewrite run_record_call. cbv beta. cbn [io programs calls].
  rewrite run_cerr_line. reflexivity.
Qed.

Lemma main_run_no_window (pf : Platform) (m : machine) :
  glfwInit pf = true -> glfwCreateWindow pf = None ->
  main pf m
  = Done (Some (-1))
      {| io := {| gl := gl (io m);
                  cerr := cerr (io m)
                          +:+ ("Failed to create GLFW window" +:+ endl) |};
         programs := programs m;
         calls := calls m
                  ++ [GlfwInit;
                      GlfwCreateWindow 1920 1080 "Controllable Triangle";
                      GlfwTerminate] |}.
Proof.
  intros Hinit Hwin. unfold main. rewrite Hinit, Hwin. cbn [negb].
  do 2 (rewrite run_record_call; cbv beta; cbn [io programs calls]).
  rewrite run_cerr_line. cbv beta. cbn [io programs calls].
  rewrite run_record_call. cbv beta. cbn [io programs calls gl cerr].
  unfold mret, Prog_ret. rewrite <- !app_assoc. reflexivity.
Qed.

Lemma main_run_no_glew (pf : Platform) (window : N) (m : machine) :
  glfwInit pf = true -> glfwCreateWindow pf = Some window ->
  glewInit_is_GLEW_OK pf = false ->
  main pf m
  = Done (Some (-1))
      {| io := {| gl := gl (io m);
                  cerr := cerr (io m)
                          +:+ ("Failed to initialize GLEW" +:+ endl) |};
         programs := programs m;
         calls := calls m ++ init_calls window ++ [GlfwTerminate] |}.
Proof.
  intros Hinit Hwin Hglew. unfold main. rewrite Hinit, Hwin, Hglew.
  cbn [negb].
  do 4 (rewrite run_record_call; cbv beta; cbn [io programs calls]).
  rewrite run_cerr_line. cbv beta. cbn [io programs calls].
  rewrite run_record_call. cbv beta. cbn [io programs calls gl cerr].
  unfold mret, Prog_ret, init_calls. rewrite <- !app_assoc. reflexivity.
Qed.

End MainRun.

(** X11. [createShaderProgram] always returns, and it returns the handle
    of the program it created whatever the compiler and the linker say.
    On the way it extends the error stream by one diagnostic for each
    stage that failed, in the order vertex shader, fragment shader, link;
    each diagnostic is its header line, at most 511 characters of the
    stage's log and a line end. *)
Theorem createShaderProgram_reports_in_order (C : Compiler) (K : Linker)
        (m : machine) :
  let shaderProgram := N.succ (N.succ (N.succ (next_name (gl (io m))))) in
  let v := glsl_compile GL_VERTEX_SHADER vertexShaderSource in
  let f := glsl_compile GL_FRAGMENT_SHADER fragmentShaderSource in
  let k := glsl_link [ compiled GL_VERTEX_SHADER vertexShaderSource;
                       compiled GL_FRAGMENT_SHADER fragmentShaderSource ] in
  (exists m',
     createShaderProgram m = Done shaderProgram m' /\
     cerr (io m')
     = with_diagnostic (fst k) "ERROR::SHADER::PROGRAM::LINKING_FAILED"
         (snd k)
         (with_diagnostic (fst f) "ERROR::SHADER::COMPILATION_FAILED"
            (snd f)
            (with_diagnostic (fst v) "ERROR::SHADER::COMPILATION_FAILED"
               (snd v) (cerr (io m))))) /\
  (forall (C' : Compiler) (K' : Linker), exists m',
     @createShaderProgram C' K' m = Done shaderProgram m').
Proof.
  intros shaderProgram v f k. split.
  - eexists. split; [apply createShaderProgram_run|]. reflexivity.
  - intros C' K'. eexists. apply createShaderProgram_run.
Qed.

(** X12. The program [createShaderProgram] returns has exactly the two
    shaders attached, vertex first, each compiled from its source text,
    and carries the status and log the linker gave for them.  Whatever
    that status, [glDeleteShader] is then called on both shaders, and on
    nothing else. *)
Theorem createShaderProgram_links_then_deletes (C : Compiler) (K : Linker)
        (m : machine) :
  let vertexShader := N.succ (next_name (gl (io m))) in
  let fragmentShader := N.succ vertexShader in
  let shaderProgram := N.succ fragmentShader in
  let v := compiled GL_VERTEX_SHADER vertexShaderSource in
  let f := compiled GL_FRAGMENT_SHADER fragmentShaderSource in
  exists m',
    createShaderProgram m = Done shaderProgram m' /\
    shaders (gl (io m')) !! vertexShader = Some v /\
    shaders (gl (io m')) !! fragmentShader = Some f /\
    programs m' !! shaderProgram
    = Some {| pr_attached := [vertexShader; fragmentShader];
              pr_status := fst (glsl_link [v; f]);
              pr_log := snd (glsl_link [v; f]) |} /\
    calls m' = calls m ++ [GlDeleteShader vertexShader;
                           GlDeleteShader fragmentShader].
Proof.
  intros vertexShader fragmentShader shaderProgram v f.
  eexists. split; [apply createShaderProgram_run|].
  cbn [io gl shaders programs calls].
  rewrite lookup_insert_ne, !lookup_insert_eq by (unfold vertexShader; lia).
  repeat split.
Qed.

(** X13. [main] always returns or stays in its loop; nothing it calls
    ends the process.  It returns -1 exactly when [glfwInit], the window
    creation or [glewInit] fails, it returns 0 when all three succeed and
    some frame has Escape down or a close request, and it is still in the
    loop when they succeed and no frame offered so far closes.  The
    compiler and the linker have no say in this. *)
Theorem main_exit_status (L : Libm) (C : Compiler) (K : Linker)
        (pf : Platform) (m : machine) :
  exists m',
    main pf m
    = Done (if glfwInit pf && bool_decide (is_Some (glfwCreateWindow pf))
               && glewInit_is_GLEW_OK pf
            then if existsb closes (frames pf) then Some 0 else None
            else Some (-1)) m'.
Proof.
  destruct (glfwInit pf) eqn:Hinit.
  - destruct (glfwCreateWindow pf) as [window|] eqn:Hwin.
    + destruct (glewInit_is_GLEW_OK pf) eqn:Hglew.
      * destruct (main_run pf window m Hinit Hwin Hglew) as (m' & Hm & _).
        exists m'. rewrite Hm. reflexivity.
      * eexists. rewrite (main_run_no_glew pf window m Hinit Hwin Hglew).
        reflexivity.
    + eexists. rewrite (main_run_no_window pf m Hinit Hwin). reflexivity.
  - eexists. rewrite (main_run_no_glfw pf m Hinit). reflexivity.
Qed.

(** X14. An initialisation failure writes one line to the error stream
    and touches no shader or program object.  When [glfwInit] fails
    nothing else is called; when the window cannot be created or
    [glewInit] fails, [glfwTerminate] is the one call made after the
    failure. *)
Theorem main_initialisation_failure (L : Libm) (C : Compiler) (K : Linker)
        (pf : Platform) (m : machine) :
  (glfwInit pf = false ->
   main pf m
   = Done (Some (-1))
       {| io := {| gl := gl (io m);
                   cerr := cerr (io m)
                           +:+ ("Failed to initialize GLFW" +:+ endl) |};
          programs := programs m;
          calls := calls m ++ [GlfwInit] |}) /\
  (glfwInit pf = true -> glfwCreateWindow pf = None ->
   main pf m
   = Done (Some (-1))
       {| io := {| gl := gl (io m);
                   cerr := cerr (io m)
                           +:+ ("Failed to create GLFW window" +:+ endl) |};
          programs := programs m;
          calls := calls m
                   ++ [GlfwInit;
                       GlfwCreateWindow 1920 1080 "Controllable Triangle";
                       GlfwTerminate] |}) /\
  (forall window,
   glfwInit pf = true -> glfwCreateWindow pf = Some window ->
   glewInit_is_GLEW_OK pf = false ->
   main pf m
   = Done (Some (-1))
       {| io := {| gl := gl (io m);
                   cerr := cerr (io m)
                           +:+ ("Failed to initialize GLEW" +:+ endl) |};
          programs := programs m;
          calls := calls m
                   ++ [GlfwInit;
                       GlfwCreateWindow 1920 1080 "Controllable Triangle";
                       GlfwMakeContextCurrent window; GlewInit;
                       GlfwTerminate] |}).
Proof.
  split; [|split].
  - apply main_run_no_glfw.
  - apply main_run_no_window.
  - intros window Hinit Hwin Hglew.
    now rewrite (main_run_no_glew pf window m Hinit Hwin Hglew).
Qed.








(** The location of X16 does depend on the link: on a platform whose
    driver answers 0 for a linked program and -1 otherwise, the uploads
    of a run whose shaders are rejected go to -1, and those of a run
    whose shaders are accepted go to 0. *)
Example failed_link_moves_the_upload :
  let pf := a_platform [keys_at 1 false false false] in
  (exists r m u,
     @main RefLibm.libm rejecting_compiler strict_linker pf boot = Done r m /\
     List.filter is_upload (calls m) = [GlUniformMatrix4fv (-1) 1 true u]) /\
  (exists r m u,
     @main RefLibm.libm accepting_compiler strict_linker pf boot = Done r m /\
     List.filter is_upload (calls m) = [GlUniformMatrix4fv 0 1 true u]).
Proof.
  split; eexists _, _, _; (split; [vm_compute; reflexivity | reflexivity]).
Qed.



Lemma main_initialisation_failure_witness :
  @main RefLibm.libm accepting_compiler strict_linker
        {| glfwInit := true; glfwCreateWindow := None;
           glewInit_is_GLEW_OK := true; glGenVertexArrays := 1%N;
           glGenBuffers := 1%N; uniform_location := fun _ _ _ => 0;
           frames := [] |} boot
  = Done (Some (-1))
      {| io := {| gl := gl (io boot);
                  cerr := cerr (io boot)
                          +:+ ("Failed to create GLFW window" +:+ endl) |};
         programs := programs boot;
         calls := calls boot
                  ++ [GlfwInit;
                      GlfwCreateWindow 1920 1080 "Controllable Triangle";
                      GlfwTerminate] |}.
Proof.
  exact (proj1 (proj2 (main_initialisation_failure RefLibm.libm
                         accepting_compiler strict_linker
                         {| glfwInit := true; glfwCreateWindow := None;
                            glewInit_is_GLEW_OK := true;
                            glGenVertexArrays := 1%N; glGenBuffers := 1%N;
                            uniform_location := fun _ _ _ => 0;
                            frames := [] |} boot))
               eq_refl eq_refl).
Defined.

